(** * hw05_final: the URL configuration of the [posts] application and its
      view-layer test suite.

    The development embeds [src/posts/urls.py] (the list [urlpatterns]) and
    the parts of [src/posts/tests/test_view.py] the properties are about.
    The framework pieces that give these files their meaning (the route
    syntax of [django.urls.path], the resolver, the paginator, the cache)
    are modelled next to them. *)

From Stdlib Require Import String Ascii List Bool Arith Lia DecimalString.
From Stdlib Require Import DecimalNat DecimalFacts.
From stdpp Require Import base option list strings gmap.
Import ListNotations.

Local Open Scope list_scope.
Local Open Scope string_scope.

(** ** Strings *)

Module Str.

Fixpoint forallb (f : ascii -> bool) (s : string) : bool :=
  match s with
  | EmptyString => true
  | String a s' => f a && forallb f s'
  end.

(** [strip_prefix l s] is [Some r] when [s = l ++ r]. *)
Fixpoint strip_prefix (l s : string) : option string :=
  match l with
  | EmptyString => Some s
  | String a l' =>
      match s with
      | EmptyString => None
      | String b s' => if Ascii.eqb a b then strip_prefix l' s' else None
      end
  end.

Definition snoc (s : string) (a : ascii) : string := s ++ String a "".

(** Python's [str.split(sep, 1)]: the text before the first [sep], and the
    text after it when there is one. *)
Fixpoint split_first (sep : ascii) (s : string) : string * option string :=
  match s with
  | EmptyString => ("", None)
  | String a s' =>
      if Ascii.eqb a sep then ("", Some s')
      else let '(h, t) := split_first sep s' in (String a h, t)
  end.

Definition is_digit (a : ascii) : bool :=
  let n := nat_of_ascii a in (48 <=? n)%nat && (n <=? 57)%nat.

Definition is_lower (a : ascii) : bool :=
  let n := nat_of_ascii a in (97 <=? n)%nat && (n <=? 122)%nat.

Definition is_upper (a : ascii) : bool :=
  let n := nat_of_ascii a in (65 <=? n)%nat && (n <=? 90)%nat.

(** The value of a string of decimal digits, most significant first:
    Python's [int(value)] on an all-digit string. *)
Fixpoint decimal_acc (acc : nat) (s : string) : nat :=
  match s with
  | EmptyString => acc
  | String a s' => decimal_acc (10 * acc + (nat_of_ascii a - 48)) s'
  end.

Definition decimal (s : string) : nat := decimal_acc 0 s.

End Str.

(** ** Routes of [django.urls.path] *)

Module Route.

(** The converters a route of this URL configuration can name
    ([django.urls.converters]); each is a character class repeated one or
    more times. *)
Inductive converter := ConvInt | ConvStr | ConvSlug | ConvPath.

(** [IntConverter.regex = '[0-9]+'], [StringConverter.regex = '[^/]+'],
    [SlugConverter.regex = '[-a-zA-Z0-9_]+'], [PathConverter.regex = '.+']. *)
Definition in_class (c : converter) (a : ascii) : bool :=
  match c with
  | ConvInt => Str.is_digit a
  | ConvStr => negb (Ascii.eqb a "/")
  | ConvSlug =>
      Str.is_digit a || Str.is_lower a || Str.is_upper a
      || Ascii.eqb a "-" || Ascii.eqb a "_"
  | ConvPath => negb (Ascii.eqb a "010")
  end.

(** [get_converter]: the registry of converter names. *)
Definition get_converter (raw : string) : option converter :=
  if String.eqb raw "int" then Some ConvInt
  else if String.eqb raw "str" then Some ConvStr
  else if String.eqb raw "slug" then Some ConvSlug
  else if String.eqb raw "path" then Some ConvPath
  else None.

(** A captured argument after [to_python]: [int] gives a number, the other
    converters give the text as it is. *)
Inductive arg := ArgInt (n : nat) | ArgStr (s : string).

Definition to_python (c : converter) (v : string) : arg :=
  match c with
  | ConvInt => ArgInt (Str.decimal v)
  | _ => ArgStr v
  end.

(** A whole segment [v] is accepted by converter [c]: the converter's
    regular expression matches all of [v]. *)
Definition accepts (c : converter) (v : string) : bool :=
  negb (String.eqb v "") && Str.forallb (in_class c) v.

Inductive part :=
| Lit (l : string)
| Param (c : converter) (name : string).

Definition kwargs := list (string * arg).

(** The text between [<] and [>]: [converter:parameter], or the parameter
    alone, in which case the converter is [str]. *)
Definition component (inner : string) : option part :=
  match Str.split_first ":" inner with
  | (p, None) => if String.eqb p "" then None else Some (Param ConvStr p)
  | (raw, Some p) =>
      if String.eqb p "" then None
      else match get_converter raw with
           | Some c => Some (Param c p)
           | None => None
           end
  end.

Inductive mode := InLit (acc : string) | InParam (acc : string).

Definition lit (acc : string) : list part :=
  if String.eqb acc "" then [] else [Lit acc].

(** [_route_to_regex]: cut the route into literal text and [<...>]
    components.  [None] stands for [ImproperlyConfigured]; a route with an
    unclosed [<] is rejected here as well. *)
Fixpoint scan (m : mode) (s : string) : option (list part) :=
  match s with
  | EmptyString =>
      match m with
      | InLit acc => Some (lit acc)
      | InParam _ => None
      end
  | String a s' =>
      match m with
      | InLit acc =>
          if Ascii.eqb a "<"
          then option_map (app (lit acc)) (scan (InParam "") s')
          else scan (InLit (Str.snoc acc a)) s'
      | InParam acc =>
          if Ascii.eqb a ">"
          then match component acc with
               | Some p => option_map (cons p) (scan (InLit "") s')
               | None => None
               end
          else scan (InParam (Str.snoc acc a)) s'
      end
  end.

Definition route_to_parts (route : string) : option (list part) :=
  scan (InLit "") route.

(** One converter group [(?P<name>class+)] followed by the rest of the
    pattern [k]: the longest run of class characters is tried first and
    shorter ones after it, as the regular-expression engine does.
    [taken] is what the group has consumed so far. *)
Fixpoint munch {A} (cls : ascii -> bool) (k : string -> string -> option A)
    (taken s : string) : option A :=
  match s with
  | EmptyString => None
  | String a s' =>
      if cls a then
        match munch cls k (Str.snoc taken a) s' with
        | Some r => Some r
        | None => k (Str.snoc taken a) s'
        end
      else None
  end.

(** [RoutePattern.match] for an endpoint: the pattern is anchored at both
    ends of the path. *)
Fixpoint match_parts (ps : list part) (s : string) : option kwargs :=
  match ps with
  | [] => if String.eqb s "" then Some [] else None
  | Lit l :: ps' =>
      match Str.strip_prefix l s with
      | Some s' => match_parts ps' s'
      | None => None
      end
  | Param c n :: ps' =>
      munch (in_class c)
        (fun v rest =>
           option_map (cons (n, to_python c v)) (match_parts ps' rest))
        "" s
  end.

Definition match_route (route path : string) : option kwargs :=
  match route_to_parts route with
  | Some ps => match_parts ps path
  | None => None
  end.

(** The run of a converter group ends where the class ends. *)
Definition stops (cls : ascii -> bool) (rest : string) : Prop :=
  match rest with
  | EmptyString => True
  | String b _ => cls b = false
  end.

(** What the anchored regular expression of a pattern denotes: the
    path is the literals and one accepted segment per component, in
    order; the arguments are the segments after [to_python]. *)
Inductive matches : list part -> string -> kwargs -> Prop :=
| matches_nil : matches [] "" []
| matches_lit l ps s kw :
    matches ps s kw -> matches (Lit l :: ps) (l ++ s) kw
| matches_param c n ps v s kw :
    accepts c v = true ->
    matches ps s kw ->
    matches (Param c n :: ps) (v ++ s) ((n, to_python c v) :: kw).

(** The path a parsed route gives when each component is replaced by
    the text [kw] has for it (nothing when it has none): the shape of
    the URLs the route is meant for, whether or not the texts are
    acceptable. *)
Fixpoint instantiate (ps : list part) (kw : list (string * string))
    : string :=
  match ps with
  | [] => ""
  | Lit l :: ps' => l ++ instantiate ps' kw
  | Param _ n :: ps' =>
      match List.find (fun e => String.eqb (fst e) n) kw with
      | Some e => snd e ++ instantiate ps' kw
      | None => instantiate ps' kw
      end
  end.

(** The converter a parsed route gives to the component called [n]. *)
Definition converter_of (n : string) (ps : list part) : option converter :=
  match List.find (fun p => match p with
                            | Param _ m => String.eqb m n
                            | Lit _ => false
                            end) ps with
  | Some (Param c _) => Some c
  | _ => None
  end.

(** The route as the spec's table prints it: a leading [/], and every
    component as [<parameter>] without its converter. *)
Fixpoint display_parts (ps : list part) : string :=
  match ps with
  | [] => ""
  | Lit l :: ps' => l ++ display_parts ps'
  | Param _ n :: ps' => "<" ++ n ++ ">" ++ display_parts ps'
  end.

Definition display (route : string) : option string :=
  option_map (fun ps => "/" ++ display_parts ps) (route_to_parts route).

End Route.

(** ** [src/posts/urls.py] *)

Module Urls.
Import Route.

(** The callables of [views] the URL configuration names. *)
Inductive view :=
| page_not_found | server_error | index | group_posts | new_post
| JustStaticPage | follow_index | profile_follow | profile_unfollow
| profile | post_view | post_edit | add_comment.

Record url_pattern := path {
  route : string;
  callback : view;
  name : option string
}.

#[global] Instance view_eq_dec : EqDecision view.
Proof. solve_decision. Defined.

Definition urlpatterns : list url_pattern := [
  path "404/" page_not_found (Some "404");
  path "500/" server_error (Some "500");
  path "" index (Some "index");
  path "group/<slug:slug>/" group_posts (Some "group");
  path "new/" new_post (Some "new_post");
  path "justpage/" JustStaticPage None;
  path "follow/" follow_index (Some "follow_index");
  path "<str:username>/follow/" profile_follow (Some "profile_follow");
  path "<str:username>/unfollow/" profile_unfollow (Some "profile_unfollow");
  path "<str:username>/" profile (Some "profile");
  path "<str:username>/<int:post_id>/" post_view (Some "post");
  path "<str:username>/<int:post_id>/edit/" post_edit (Some "post_edit");
  path "<username>/<int:post_id>/comment/" add_comment (Some "add_comment")
].

Record resolver_match := ResolverMatch {
  func : view;
  args : kwargs;
  url_name : option string
}.

(** [URLResolver.resolve]: the patterns are tried in the order of the
    list and the first one that matches wins; [None] is [Resolver404]. *)
Fixpoint resolve_in (pats : list url_pattern) (p : string)
    : option resolver_match :=
  match pats with
  | [] => None
  | u :: rest =>
      match match_route (route u) p with
      | Some kw => Some (ResolverMatch (callback u) kw (name u))
      | None => resolve_in rest p
      end
  end.

Definition resolve (p : string) : option resolver_match :=
  resolve_in urlpatterns p.

(** The URL surface: every declared route, printed as in the spec. *)
Definition url_surface : list string :=
  omap (fun u => display (route u)) urlpatterns.

(** The literal routes declared before the username catch-all, each with
    the view it is bound to. *)
Definition literal_routes : list (string * view) :=
  [("404/", page_not_found); ("500/", server_error); ("new/", new_post);
   ("justpage/", JustStaticPage); ("follow/", follow_index)].

Definition profile_pattern : url_pattern :=
  path "<str:username>/" profile (Some "profile").

Definition group_pattern : url_pattern :=
  path "group/<slug:slug>/" group_posts (Some "group").

(** The three routes of a single post. *)
Definition post_views : list view := [post_view; post_edit; add_comment].

(** The routes that begin with a username. *)
Definition username_views : list view :=
  [profile_follow; profile_unfollow; profile; post_view; post_edit;
   add_comment].

(** What follows the post id in a route of a single post. *)
Definition post_tail (v : view) : string :=
  match v with
  | post_edit => "edit/"
  | add_comment => "comment/"
  | _ => ""
  end.

End Urls.

(** ** The table of section 6 of the spec *)

Module Spec.

(** The paths of the table, row by row, in the spec's own spelling. *)
Definition url_table : list string := [
  "/404/"; "/500/";
  "/";
  "/group/<slug>/";
  "/new/";
  "/follow/";
  "/<username>/follow/"; "/<username>/unfollow/";
  "/<username>/";
  "/<username>/<post_id>/";
  "/<username>/<post_id>/edit/";
  "/<username>/<post_id>/comment/"
].

End Spec.

(** ** The records of [posts.models] the tests create *)

(** Modelled from the spec: [posts/models.py] is not in the sources.  The
    spec names the records and their fields: [User], [Group] (title, slug,
    description) and [Post] (text, author, optional group); the tests
    create them with these fields and read the key [id] of a post. *)
Module Models.

Record User := { username : string }.

Record Group := {
  group_id : nat;
  title : string;
  slug : string;
  description : string
}.

Record Post := {
  id : nat;
  text : string;
  author : User;
  group : option nat        (* the primary key of the post's group *)
}.

Record Database := {
  users : list User;
  groups : list Group;
  posts : list Post
}.

Definition empty : Database := {| users := []; groups := []; posts := [] |}.

#[global] Instance User_eq_dec : EqDecision User.
Proof. solve_decision. Defined.
#[global] Instance Group_eq_dec : EqDecision Group.
Proof. solve_decision. Defined.
#[global] Instance Post_eq_dec : EqDecision Post.
Proof. solve_decision. Defined.

(** The key the database gives a new row: one more than the greatest
    key among the rows, so a key no row has. *)
Definition next_key (keys : list nat) : nat := S (list_max keys).

(** [Model.objects.create(...)]: the new row gets the next primary key
    and is stored after the rows already there. *)
Definition User_create (name : string) (d : Database) : User * Database :=
  let u := {| username := name |} in
  (u, {| users := (users d ++ [u])%list; groups := groups d;
         posts := posts d |}).

Definition Group_create (t s descr : string) (d : Database)
    : Group * Database :=
  let g := {| group_id := next_key (map group_id (groups d)); title := t;
              slug := s;
              description := descr |} in
  (g, {| users := users d; groups := (groups d ++ [g])%list;
         posts := posts d |}).

Definition Post_create (t : string) (a : User) (g : option Group)
    (d : Database) : Post * Database :=
  let p := {| id := next_key (map id (posts d)); text := t; author := a;
              group := option_map group_id g |} in
  (p, {| users := users d; groups := groups d;
         posts := (posts d ++ [p])%list |}).

End Models.

(** ** [django.core.paginator] *)

Module Paginator.

Record Page (A : Type) := {
  object_list : list A;
  number : nat
}.
Arguments object_list {A} _.
Arguments number {A} _.

(** What [int(number)] makes of the [page] query parameter.  A numeral
    is read as a run of the digits 0 to 9 with an optional sign; the
    other spellings [int] takes (blanks around the digits, underscores
    between them) are read as no integer. *)
Inductive raw_number :=
| NotAnInteger            (* absent, or not a decimal numeral *)
| Negative                (* a minus sign and digits *)
| Number (n : nat).

Definition parse_number (raw : option string) : raw_number :=
  match raw with
  | None => NotAnInteger
  | Some s =>
      if Route.accepts Route.ConvInt s then Number (Str.decimal s)
      else match s with
           | String "+" d =>
               if Route.accepts Route.ConvInt d then Number (Str.decimal d)
               else NotAnInteger
           | String "-" d =>
               if Route.accepts Route.ConvInt d then Negative
               else NotAnInteger
           | _ => NotAnInteger
           end
  end.

Section Paginate.
Context {A : Type}.
Variable objects : list A.
Variable per_page : nat.

Definition count : nat := length objects.

(** [ceil(max(1, count) / per_page)]: an empty listing still has a
    first page. *)
Definition num_pages : nat :=
  let hits := Nat.max 1 count in
  (hits + per_page - 1) / per_page.

(** [Paginator.page(number)]: the slice [bottom:top]. *)
Definition page (n : nat) : Page A :=
  let bottom := (n - 1) * per_page in
  let top := if (count <=? bottom + per_page)%nat then count
             else bottom + per_page in
  {| object_list := firstn (top - bottom) (skipn bottom objects);
     number := n |}.

(** [Paginator.get_page(number)]: a number that is not an integer
    gives the first page, one out of range gives the last page. *)
Definition get_page (raw : option string) : Page A :=
  match parse_number raw with
  | NotAnInteger => page 1
  | Negative => page num_pages
  | Number n =>
      if (n <? 1)%nat then page num_pages
      else if (num_pages <? n)%nat then page num_pages
      else page n
  end.
End Paginate.

End Paginator.

(** ** The views behind the routes, and the request cycle *)

Module Views.
Import Models Paginator.

(** [request.GET.get(key)]: the query string is a list of [key=value]
    pairs joined by [&]; the last pair with the key gives the value. *)
Fixpoint split_all (sep : ascii) (s : string) : list string :=
  match s with
  | EmptyString => [""]
  | String a s' =>
      if Ascii.eqb a sep then "" :: split_all sep s'
      else match split_all sep s' with
           | h :: t => String a h :: t
           | [] => [String a ""]
           end
  end.

Definition query_get (key query : string) : option string :=
  fold_left
    (fun found pair =>
       match Str.split_first "=" pair with
       | (k, Some v) => if String.eqb k key then Some v else found
       | (_, None) => found
       end)
    (split_all "&" query) None.

Record HttpRequest := {
  user : option User;       (* the user of the client's session *)
  full_path : string;       (* path and query string, as requested *)
  query : string
}.

(** The template context of a listing page. *)
Record Context := {
  ctx_page : Page Post;
  ctx_group : option Group
}.

Section Templates.
(** The bytes of a response body. *)
Context {Content : Type}.
(** The order in which a queryset of posts is listed. *)
Variable ordering : list Post -> list Post.
(** [render(request, template, context)]. *)
Variable render : string -> Context -> Content.

Inductive HttpResponse :=
| Rendered (template : string) (context : Context) (content : Content)
| FromCache (content : Content)
| NotFound
| Unmodelled (v : Urls.view) (kw : Route.kwargs).

Definition response_content (r : HttpResponse) : option Content :=
  match r with
  | Rendered _ _ c => Some c
  | FromCache c => Some c
  | _ => None
  end.

(** [response.context]: filled by the templates rendered while the
    response was made, so a response taken from the cache has none. *)
Definition response_context (r : HttpResponse) : option Context :=
  match r with
  | Rendered _ ctx _ => Some ctx
  | _ => None
  end.

Record Site := {
  db : Database;
  cache : gmap string Content
}.

Definition per_page : nat := 10.

(** Modelled from the spec: [views.index] is not in the sources; the
    spec gives it as the paginated post feed, ten items a page. *)
Definition index (request : HttpRequest) (d : Database) : HttpResponse :=
  let page := get_page (ordering (posts d)) per_page
                (query_get "page" (query request)) in
  let ctx := {| ctx_page := page; ctx_group := None |} in
  Rendered "index.html" ctx (render "index.html" ctx).

Definition in_group (g : Group) (p : Post) : bool :=
  match group p with
  | Some k => (k =? group_id g)%nat
  | None => false
  end.

(** Modelled from the spec: [views.group_posts] is not in the sources;
    the spec gives it as the posts filtered by group, paginated like
    the feed.  A slug that names no group gives the 404 page. *)
Definition group_posts (request : HttpRequest) (s : string)
    (d : Database) : HttpResponse :=
  match List.find (fun g => String.eqb (slug g) s) (groups d) with
  | None => NotFound
  | Some g =>
      let page := get_page
                    (ordering (List.filter (in_group g) (posts d)))
                    per_page (query_get "page" (query request)) in
      let ctx := {| ctx_page := page; ctx_group := Some g |} in
      Rendered "group.html" ctx (render "group.html" ctx)
  end.

(** Modelled from the spec: whole-page caching of a view.  The key is
    the requested URL; a stored body is served without running the
    view, a missing one is rendered and stored.  Expiry of entries
    with time is outside the model. *)
Definition cache_page (v : HttpRequest -> Database -> HttpResponse)
    (request : HttpRequest) (s : Site) : HttpResponse * Site :=
  match cache s !! full_path request with
  | Some body => (FromCache body, s)
  | None =>
      let r := v request (db s) in
      match response_content r with
      | Some body =>
          (r, {| db := db s;
                 cache := <[full_path request := body]> (cache s) |})
      | None => (r, s)
      end
  end.

Definition lookup_arg (n : string) (kw : Route.kwargs)
    : option Route.arg :=
  option_map snd (List.find (fun e => String.eqb (fst e) n) kw).

(** Modelled from the spec: the project's own URL configuration is
    not in the sources; the table of the spec gives the routes of
    [urlpatterns] at the root of the site.  So the handler resolves
    the path without its leading [/] against [urlpatterns] and calls
    the view found. *)
Definition get_response (who : option User) (url : string) (s : Site)
    : HttpResponse * Site :=
  let '(p, q) := Str.split_first "?" url in
  let request := {| user := who; full_path := url;
                    query := default "" q |} in
  match Str.strip_prefix "/" p with
  | None => (NotFound, s)
  | Some rel =>
      match Urls.resolve rel with
      | None => (NotFound, s)
      | Some m =>
          match Urls.func m with
          | Urls.index => cache_page index request s
          | Urls.group_posts =>
              match lookup_arg "slug" (Urls.args m) with
              | Some (Route.ArgStr sl) =>
                  (group_posts request sl (db s), s)
              | _ => (NotFound, s)
              end
          | v => (Unmodelled v (Urls.args m), s)
          end
      end
  end.

(** [Post.objects.create] and [cache.clear()] on the running site. *)
Definition create_post (t : string) (a : User) (g : option Group)
    (s : Site) : Post * Site :=
  let '(p, d) := Post_create t a g (db s) in
  (p, {| db := d; cache := cache s |}).

Definition cache_clear (s : Site) : Site :=
  {| db := db s; cache := ∅ |}.



End Templates.

Arguments HttpResponse : clear implicits.
Arguments Site : clear implicits.

(** The plainest choice for what the views leave open, for running the
    model: posts are listed in the order they are stored, and the body
    of a page is the list of posts it shows. *)
Definition as_stored (l : list Post) : list Post := l.

Definition listing (template : string) (ctx : Context) : list Post :=
  object_list (ctx_page ctx).

(** [Converter.to_url]: [str(value)].  The text goes into the path as
    it is; [reverse] quotes the whole path afterwards. *)
Definition to_url (a : Route.arg) : string :=
  match a with
  | Route.ArgStr s => s
  | Route.ArgInt n => NilEmpty.string_of_uint (Nat.to_uint n)
  end.

(** The names of the components of a parsed route. *)
Definition param_names (ps : list Route.part) : list string :=
  omap (fun p => match p with
                 | Route.Param _ n => Some n
                 | Route.Lit _ => None
                 end) ps.

(** [set(kwargs).symmetric_difference(params)] is empty: the keyword
    arguments are the parameters of the route, no more and no fewer. *)
Definition same_keys (params : list string) (kw : Route.kwargs) : bool :=
  forallb (fun k => existsb (String.eqb k) params) (map fst kw)
  && forallb (fun p => existsb (String.eqb p) (map fst kw)) params.

(** [candidate_pat % text_candidate_subs]: the route with the text of
    each argument in place of its component. *)
Fixpoint fill (ps : list Route.part) (kw : Route.kwargs) : option string :=
  match ps with
  | [] => Some ""
  | Route.Lit l :: ps' => option_map (String.append l) (fill ps' kw)
  | Route.Param _ n :: ps' =>
      match lookup_arg n kw with
      | Some a => option_map (String.append (to_url a)) (fill ps' kw)
      | None => None
      end
  end.

(** The bytes [urllib.parse.quote] leaves as they are when called with
    [safe=RFC3986_SUBDELIMS + '/~:@']: letters, digits and the marks
    below. *)
Definition url_safe (a : ascii) : bool :=
  Str.is_digit a || Str.is_lower a || Str.is_upper a
  || existsb (Ascii.eqb a) (list_ascii_of_string "_.-~!$&'()*+,;=/:@").

Definition hex_digit (n : nat) : ascii :=
  nth n (list_ascii_of_string "0123456789ABCDEF") "0"%char.

(** [quote]: every other byte becomes [%] and its two hexadecimal
    digits. *)
Fixpoint quote (s : string) : string :=
  match s with
  | EmptyString => ""
  | String a s' =>
      if url_safe a then String a (quote s')
      else String "%"
             (String (hex_digit (nat_of_ascii a / 16))
                (String (hex_digit (nat_of_ascii a mod 16)) (quote s')))
  end.

Definition hex_value (a : ascii) : option nat :=
  let n := nat_of_ascii a in
  if Str.is_digit a then Some (n - 48)
  else if (97 <=? n)%nat && (n <=? 102)%nat then Some (n - 87)
  else if (65 <=? n)%nat && (n <=? 70)%nat then Some (n - 55)
  else None.

(** [urllib.parse.unquote_to_bytes]: [%] and two hexadecimal digits
    become the byte they spell; anything else stays.  This is how the
    path of a requested URL is decoded before it is resolved. *)
Fixpoint unquote (s : string) : string :=
  match s with
  | EmptyString => ""
  | String a s' =>
      if Ascii.eqb a "%" then
        match s' with
        | String h (String l r) =>
            match hex_value h, hex_value l with
            | Some x, Some y => String (ascii_of_nat (16 * x + y)) (unquote r)
            | _, _ => String a (unquote s')
            end
        | _ => String a (unquote s')
        end
      else String a (unquote s')
  end.

(** [escape_leading_slashes]: a URL that begins with [//] gets its
    second slash quoted. *)
Definition escape_leading_slashes (url : string) : string :=
  match url with
  | String a (String b r) =>
      if Ascii.eqb a "/" && Ascii.eqb b "/" then "/%2F" ++ r else url
  | _ => url
  end.

(** [django.urls.reverse]: the pattern called [name] is looked up; the
    keyword arguments must be its parameters exactly; the route filled
    with their texts must match the pattern; the URL is that path
    after the prefix [/], quoted.  [None] is [NoReverseMatch]. *)
Definition reverse (name : string) (kw : Route.kwargs) : option string :=
  match List.find (fun u => bool_decide (Urls.name u = Some name))
          Urls.urlpatterns with
  | None => None
  | Some u =>
      match Route.route_to_parts (Urls.route u) with
      | None => None
      | Some ps =>
          if same_keys (param_names ps) kw then
            match fill ps kw with
            | Some candidate =>
                match Route.match_parts ps candidate with
                | Some _ =>
                    Some (escape_leading_slashes (quote ("/" ++ candidate)))
                | None => None
                end
            | None => None
            end
          else None
      end
  end.

End Views.

(** ** Name lookup in the test module *)

Module Python.

(** What a name of the module's namespace is bound to. *)
Inductive object :=
| PyModule (name : string)
| PyClass (name : string)
| PyFunction (name : string)
| PyInstance (class : string)
| PyBuiltin (name : string)
| PyStr (s : string)
| PyInt (n : nat).

#[global] Instance object_eq_dec : EqDecision object.
Proof. solve_decision. Defined.

Inductive exception :=
| AssertionError (msg : string)
| NameError (name : string)
| UnboundLocalError (name : string)
| AttributeError (attr : string)
| TypeError
| NoReverseMatch (name : string).

(** The names of the [builtins] module. *)
Definition builtins : list string := [
  "ArithmeticError"; "AssertionError"; "AttributeError"; "BaseException";
  "BlockingIOError"; "BrokenPipeError"; "BufferError"; "BytesWarning";
  "ChildProcessError"; "ConnectionAbortedError"; "ConnectionError";
  "ConnectionRefusedError"; "ConnectionResetError"; "DeprecationWarning";
  "EOFError"; "Ellipsis"; "EnvironmentError"; "Exception"; "False";
  "FileExistsError"; "FileNotFoundError"; "FloatingPointError";
  "FutureWarning"; "GeneratorExit"; "IOError"; "ImportError";
  "ImportWarning"; "IndentationError"; "IndexError"; "InterruptedError";
  "IsADirectoryError"; "KeyError"; "KeyboardInterrupt"; "LookupError";
  "MemoryError"; "ModuleNotFoundError"; "NameError"; "None";
  "NotADirectoryError"; "NotImplemented"; "NotImplementedError"; "OSError";
  "OverflowError"; "PendingDeprecationWarning"; "PermissionError";
  "ProcessLookupError"; "RecursionError"; "ReferenceError";
  "ResourceWarning"; "RuntimeError"; "RuntimeWarning"; "StopAsyncIteration";
  "StopIteration"; "SyntaxError"; "SyntaxWarning"; "SystemError";
  "SystemExit"; "TabError"; "TimeoutError"; "True"; "TypeError";
  "UnboundLocalError"; "UnicodeDecodeError"; "UnicodeEncodeError";
  "UnicodeError"; "UnicodeTranslateError"; "UnicodeWarning"; "UserWarning";
  "ValueError"; "Warning"; "ZeroDivisionError"; "__build_class__";
  "__debug__"; "__doc__"; "__import__"; "__loader__"; "__name__";
  "__package__"; "__spec__"; "abs"; "all"; "any"; "ascii"; "bin"; "bool";
  "breakpoint"; "bytearray"; "bytes"; "callable"; "chr"; "classmethod";
  "compile"; "complex"; "copyright"; "credits"; "delattr"; "dict"; "dir";
  "divmod"; "enumerate"; "eval"; "exec"; "exit"; "filter"; "float";
  "format"; "frozenset"; "getattr"; "globals"; "hasattr"; "hash"; "help";
  "hex"; "id"; "input"; "int"; "isinstance"; "issubclass"; "iter"; "len";
  "license"; "list"; "locals"; "map"; "max"; "memoryview"; "min"; "next";
  "object"; "oct"; "open"; "ord"; "pow"; "print"; "property"; "quit";
  "range"; "repr"; "reversed"; "round"; "set"; "setattr"; "slice";
  "sorted"; "staticmethod"; "str"; "sum"; "super"; "tuple"; "type";
  "vars"; "zip"
].

(** A function's frame: the names the compiler made local to it (its
    parameters and the targets of its assignments) and the values bound
    so far. *)
Record frame := {
  varnames : list string;
  locals : gmap string object
}.

(** Reading a name inside a function body: a local name is read from the
    frame, any other name from the module's globals and then from the
    builtins. *)
Definition load_name (globals : gmap string object) (f : frame)
    (name : string) : exception + object :=
  if bool_decide (name ∈ varnames f) then
    match locals f !! name with
    | Some v => inr v
    | None => inl (UnboundLocalError name)
    end
  else
    match globals !! name with
    | Some v => inr v
    | None =>
        if bool_decide (name ∈ builtins) then inr (PyBuiltin name)
        else inl (NameError name)
    end.

End Python.

(** ** [src/posts/tests/test_view.py] *)

Module TestView.
Import Models Paginator Views Python.

(** The names bound at the top level of the module: the imports of
    lines 1 to 6, the two test classes, and the attributes every module
    has. *)
Definition module_globals : gmap string object := list_to_map [
  ("__name__", PyStr "posts.tests.test_view");
  ("__doc__", PyBuiltin "None");
  ("__package__", PyStr "posts.tests");
  ("__loader__", PyInstance "SourceFileLoader");
  ("__spec__", PyInstance "ModuleSpec");
  ("__file__", PyStr "posts/tests/test_view.py");
  ("__cached__", PyStr "posts/tests/__pycache__/test_view.pyc");
  ("__builtins__", PyModule "builtins");
  ("forms", PyModule "django.forms");
  ("cache", PyInstance "ConnectionProxy");
  ("Client", PyClass "Client");
  ("TestCase", PyClass "TestCase");
  ("reverse", PyFunction "reverse");
  ("Group", PyClass "Group");
  ("Post", PyClass "Post");
  ("User", PyClass "User");
  ("PostViewTests", PyClass "PostViewTests");
  ("PaginatorViewsTest", PyClass "PaginatorViewsTest")
].

(** [django.test.Client]: the session it carries. *)
Record Client := { session_user : option User }.

Definition new_Client : Client := {| session_user := None |}.
Definition force_login (u : User) (c : Client) : Client :=
  {| session_user := Some u |}.

Section Run.
Context {Content : Type} `{EqDecision Content}.
Variable ordering : list Post -> list Post.
Variable render : string -> Context -> Content.

(** What a test method runs against, and what it leaves behind: the
    site, the URLs its clients have requested, and the number of
    assertions that have held. *)
Record World := {
  site : Site Content;
  requested : list string;
  held : nat
}.

Definition Test (A : Type) : Type := World -> (exception + A) * World.

Definition ret {A} (a : A) : Test A := fun w => (inr a, w).
Definition raise {A} (e : exception) : Test A := fun w => (inl e, w).
Definition bind {A B} (c : Test A) (k : A -> Test B) : Test B :=
  fun w =>
    match c w with
    | (inr a, w') => k a w'
    | (inl e, w') => (inl e, w')
    end.

#[local] Instance Test_ret : MRet Test := @ret.
#[local] Instance Test_bind : MBind Test := fun A B k c => bind c k.

Definition lift {A} (r : exception + A) : Test A := fun w => (r, w).

(** [client.get(url)] *)
Definition get (c : Client) (url : string) : Test (HttpResponse Content) :=
  fun w =>
    let '(r, s) := get_response ordering render (session_user c) url
                     (site w) in
    (inr r, {| site := s; requested := (requested w ++ [url])%list;
               held := held w |}).

Definition on_site {A} (f : Site Content -> A * Site Content) : Test A :=
  fun w =>
    let '(a, s) := f (site w) in
    (inr a, {| site := s; requested := requested w; held := held w |}).

Definition assertEqual {A} `{EqDecision A} (a b : A) (msg : string)
    : Test unit :=
  fun w =>
    if decide (a = b)
    then (inr tt, {| site := site w; requested := requested w;
                     held := S (held w) |})
    else (inl (AssertionError msg), w).

Definition assertNotEqual {A} `{EqDecision A} (a b : A) (msg : string)
    : Test unit :=
  fun w =>
    if decide (a = b)
    then (inl (AssertionError msg), w)
    else (inr tt, {| site := site w; requested := requested w;
                     held := S (held w) |}).

Definition reverse_url (name : string) (kw : Route.kwargs) : Test string :=
  match reverse name kw with
  | Some url => ret url
  | None => raise (NoReverseMatch name)
  end.

(** [response.context['page']] and [response.context.get('page')]:
    without a context the first is a [TypeError], the second an
    [AttributeError]. *)
Definition context_item (r : HttpResponse Content) : Test (Page Post) :=
  match response_context r with
  | Some ctx => ret (ctx_page ctx)
  | None => raise TypeError
  end.

Definition context_get (r : HttpResponse Content) : Test (Page Post) :=
  match response_context r with
  | Some ctx => ret (ctx_page ctx)
  | None => raise (AttributeError "get")
  end.

(** [response.content] *)
Definition content_of (r : HttpResponse Content) : Test Content :=
  match response_content r with
  | Some c => ret c
  | None => raise (AttributeError "content")
  end.

(** Calling [obj.count()]: none of the objects a name of this module
    can be bound to has such a method taking no argument. *)
Definition call_count (o : object) : Test object :=
  match o with
  | PyStr _ | PyBuiltin _ => raise TypeError
  | _ => raise (AttributeError "count")
  end.

(** *** [PostViewTests] *)

Record PostViewFixture := {
  cls_user : User;
  cls_group : Group;
  cls_wrong_group : Group;
  cls_post : Post
}.

Definition PostViewTests_setUpClass (d : Database)
    : PostViewFixture * Database :=
  let '(u, d) := User_create "username" d in
  let '(g, d) := Group_create "Заголовок" "test-slug" "Описание" d in
  let '(wg, d) := Group_create "Группа" "slug-test" "description" d in
  let '(p, d) := Post_create "Текст" u (Some g) d in
  ({| cls_user := u; cls_group := g; cls_wrong_group := wg;
      cls_post := p |}, d).

Record PostViewSelf := {
  fixture : PostViewFixture;
  guest_client : Client;
  authorized_client : Client
}.

Definition PostViewTests_setUp (fx : PostViewFixture) : PostViewSelf :=
  {| fixture := fx;
     guest_client := new_Client;
     authorized_client := force_login (cls_user fx) new_Client |}.

Definition test_index_shows_new_post (self : PostViewSelf) : Test unit :=
  url ← reverse_url "index" [];
  response ← get (authorized_client self) url;
  page ← context_item response;
  assertEqual (length (object_list page)) 1 "".

Definition test_group_shows_new_post (self : PostViewSelf) : Test unit :=
  url ← reverse_url "group"
           [("slug", Route.ArgStr (slug (cls_group (fixture self))))];
  response ← get (authorized_client self) url;
  page ← context_item response;
  assertEqual (length (object_list page)) 1 "".

Definition test_wrong_group_does_not_show_new_post (self : PostViewSelf)
    : Test unit :=
  url ← reverse_url "group"
           [("slug",
             Route.ArgStr (slug (cls_wrong_group (fixture self))))];
  response ← get (authorized_client self) url;
  page ← context_item response;
  assertEqual (length (object_list page)) 0 "".

Definition test_index_page_cache (self : PostViewSelf) : Test unit :=
  url ← reverse_url "index" [];
  response ← get (authorized_client self) url;
  previous_content ← content_of response;
  on_site (create_post "Новый пост" (cls_user (fixture self)) None);;
  url ← reverse_url "index" [];
  response ← get (authorized_client self) url;
  next_content ← content_of response;
  assertEqual previous_content next_content "Кэширование не работает";;
  on_site (fun s => (tt, cache_clear s));;
  url ← reverse_url "index" [];
  response ← get (authorized_client self) url;
  cleared_cache_content ← content_of response;
  assertNotEqual cleared_cache_content next_content
    "Кэширование не работает".

(** The frame of [test_follow_unfollow_feauture]: its parameter [self]
    and the one name it assigns, [followers_count]. *)
Definition follow_frame : frame :=
  {| varnames := ["self"; "followers_count"];
     locals := {[ "self" := PyInstance "PostViewTests" ]} |}.

Definition test_follow_unfollow_feauture (self : PostViewSelf)
    : Test unit :=
  user ← lift (load_name module_globals follow_frame "user");
  followers_count ← call_count user;
  assertEqual followers_count (PyInt 1) "Не работает подписка";;
  user ← lift (load_name module_globals follow_frame "user");
  followers_count ← call_count user;
  assertEqual followers_count (PyInt 0) "Не работает отписка".

Definition test_profile_shows_new_post (self : PostViewSelf)
    : Test unit :=
  ret tt.

Definition test_only_authorized_client_can_comment (self : PostViewSelf)
    : Test unit :=
  ret tt.

(** A test method of [PostViewTests] as the runner executes it:
    [setUp], then the method. *)
Definition run_PostViewTests (fx : PostViewFixture)
    (method : PostViewSelf -> Test unit) : Test unit :=
  method (PostViewTests_setUp fx).

(** *** [PaginatorViewsTest] *)

Record PaginatorFixture := {
  pg_user : User;
  pg_client : Client
}.

Fixpoint create_posts (n : nat) (t : string) (u : User) (d : Database)
    : Database :=
  match n with
  | O => d
  | S n' => create_posts n' t u (snd (Post_create t u None d))
  end.

Definition PaginatorViewsTest_setUpClass (d : Database)
    : PaginatorFixture * Database :=
  let '(u, d) := User_create "Test-user" d in
  let c := force_login u new_Client in
  ({| pg_user := u; pg_client := c |},
   create_posts 13 "Тестовый пост" u d).

Definition test_first_page_containse_ten_records (self : PaginatorFixture)
    : Test unit :=
  url ← reverse_url "index" [];
  response ← get (pg_client self) url;
  page ← context_get response;
  assertEqual (length (object_list page)) 10 "".

Definition test_second_page_containse_three_records
    (self : PaginatorFixture) : Test unit :=
  url ← reverse_url "index" [];
  response ← get (pg_client self) (url ++ "?page=2");
  page ← context_get response;
  assertEqual (length (object_list page)) 3 "".

End Run.

Arguments World : clear implicits.
Arguments Test : clear implicits.

(** The tests of the suite that the model covers, run on their own
    fixtures with an empty cache, posts listed as stored and pages
    rendered as the list they show. *)
Definition fresh_world (d : Database) : World (list Post) :=
  {| site := {| db := d; cache := ∅ |}; requested := []; held := 0 |}.

Definition outcome {A} (r : (exception + A) * World (list Post))
    : (exception + A) * list string * nat :=
  (r.1, requested r.2, held r.2).

End TestView.

(** ** Names the proofs about dispatch use *)

Module Dispatch.
Import Urls.

(** The first segments of the literal routes: the usernames whose
    profile path is the path of a literal route. *)
Definition reserved_usernames : list string :=
  ["404"; "500"; "new"; "justpage"; "follow"].

(** [reverse] builds a URL for [name] and [kw]; decoded from its
    percent-quoting it is the path [p] after a [/], and [p] is
    dispatched to [v] with the same arguments under the same name. *)
Definition round_trip (name : string) (kw : Route.kwargs) (v : view)
    (p : string) : Prop :=
  exists url,
    Views.reverse name kw = Some url
    /\ Views.unquote url = "/" ++ p
    /\ resolve p = Some (ResolverMatch v kw (Some name)).

(** The last character of a text. *)
Fixpoint last_char (s : string) : option ascii :=
  match s with
  | EmptyString => None
  | String a EmptyString => Some a
  | String _ s' => last_char s'
  end.

End Dispatch.

(** * Proofs *)

#[local] Arguments String.append !_ _ : simpl nomatch.

(** * Facts about strings *)

Module StrFacts.
Import Str.

Lemma append_nil_r s : s ++ "" = s.
Proof. induction s as [|a s IH]; simpl; [done | by rewrite IH]. Qed.

Lemma append_assoc s t u : (s ++ t) ++ u = s ++ (t ++ u).
Proof. induction s as [|a s IH]; simpl; [done | by rewrite IH]. Qed.

Lemma snoc_append t a s : snoc t a ++ s = t ++ String a s.
Proof. unfold snoc. by rewrite append_assoc. Qed.

Lemma append_inv_head l r1 r2 : l ++ r1 = l ++ r2 -> r1 = r2.
Proof. induction l as [|a l IH]; simpl; [done | intros [= H]; auto]. Qed.

Lemma length_append s t :
  String.length (s ++ t) = String.length s + String.length t.
Proof. induction s as [|a s IH]; simpl; [done | by rewrite IH]. Qed.

Lemma append_inv_tail l1 l2 r : l1 ++ r = l2 ++ r -> l1 = l2.
Proof.
  revert l2. induction l1 as [|a l1 IH]; intros [|b l2]; simpl; intros H.
  - done.
  - apply (f_equal String.length) in H. simpl in H.
    rewrite length_append in H. lia.
  - apply (f_equal String.length) in H. simpl in H.
    rewrite length_append in H. lia.
  - injection H as -> H. f_equal. by apply IH.
Qed.

Lemma strip_prefix_append l r : strip_prefix l (l ++ r) = Some r.
Proof.
  induction l as [|a l IH]; simpl; [done|]. by rewrite Ascii.eqb_refl.
Qed.

Lemma strip_prefix_Some l s r : strip_prefix l s = Some r -> s = l ++ r.
Proof.
  revert s. induction l as [|a l IH]; intros s; simpl.
  - by intros [= ->].
  - destruct s as [|b s]; [done|].
    destruct (Ascii.eqb_spec a b) as [->|]; [|done].
    intros H. f_equal. by apply IH.
Qed.

Lemma forallb_append f s t :
  forallb f (s ++ t) = forallb f s && forallb f t.
Proof.
  induction s as [|a s IH]; simpl; [done|].
  by rewrite IH, andb_assoc.
Qed.

(** A text is cut at its first separator in one way only. *)
Lemma cut_unique f sep a b x y :
  f sep = false ->
  forallb f a = true -> forallb f b = true ->
  a ++ String sep x = b ++ String sep y -> a = b /\ x = y.
Proof.
  intros Hsep. revert b.
  induction a as [|c a IH]; intros [|d b]; simpl; intros Ha Hb H.
  - by injection H.
  - injection H as <- _. apply andb_prop in Hb as [Hb _]. congruence.
  - injection H as -> _. apply andb_prop in Ha as [Ha _]. congruence.
  - injection H as -> H.
    apply andb_prop in Ha as [_ Ha]. apply andb_prop in Hb as [_ Hb].
    destruct (IH b Ha Hb H) as [-> ->]. done.
Qed.

End StrFacts.

(** * The matcher against the meaning of a pattern *)

Module RouteFacts.
Import Str StrFacts Route.

Section Munch.
Context {A : Type}.
Variable cls : ascii -> bool.
Variable k : string -> string -> option A.

Lemma munch_sound s : forall taken r,
  munch cls k taken s = Some r ->
  exists v rest, s = v ++ rest /\ v <> "" /\ forallb cls v = true
                 /\ k (taken ++ v) rest = Some r.
Proof.
  induction s as [|a s IH]; intros taken r; simpl; [done|].
  destruct (cls a) eqn:Ha; [|done].
  destruct (munch cls k (snoc taken a) s) as [r'|] eqn:Hm.
  - intros [= ->].
    destruct (IH _ _ Hm) as (v & rest & -> & _ & Hall & Hk).
    exists (String a v), rest. simpl. rewrite Ha, Hall.
    rewrite snoc_append in Hk. done.
  - intros Hk. exists (String a ""), s. simpl. rewrite Ha. done.
Qed.

Lemma munch_complete v : forall taken rest,
  v <> "" -> forallb cls v = true ->
  is_Some (k (taken ++ v) rest) ->
  is_Some (munch cls k taken (v ++ rest)).
Proof.
  induction v as [|a v IH]; [done|].
  intros taken rest _ Hall Hk. simpl in *.
  apply andb_prop in Hall as [Ha Hall]. rewrite Ha.
  destruct (munch cls k (snoc taken a) (v ++ rest)) eqn:Hm; [eauto|].
  destruct v as [|b v]; [exact Hk|].
  exfalso. assert (is_Some (munch cls k (snoc taken a)
                              (String b v ++ rest))) as [? Hs].
  { apply IH; [done | done |]. by rewrite snoc_append. }
  congruence.
Qed.

Lemma munch_stops taken rest : stops cls rest ->
  munch cls k taken rest = None.
Proof. destruct rest; simpl; [done|]. by intros ->. Qed.

(** When the class ends right after [v], the group takes exactly [v]. *)
Lemma munch_greedy v : forall taken rest r,
  v <> "" -> forallb cls v = true -> stops cls rest ->
  k (taken ++ v) rest = Some r ->
  munch cls k taken (v ++ rest) = Some r.
Proof.
  induction v as [|a v IH]; [done|].
  intros taken rest r _ Hall Hstop Hk. simpl in *.
  apply andb_prop in Hall as [Ha Hall]. rewrite Ha.
  destruct v as [|b v].
  - simpl. by rewrite munch_stops.
  - erewrite IH; [done | done | done | done |].
    by rewrite snoc_append.
Qed.
End Munch.

Lemma accepts_spec c v :
  accepts c v = true <-> v <> "" /\ forallb (in_class c) v = true.
Proof.
  unfold accepts. rewrite andb_true_iff, negb_true_iff, String.eqb_neq.
  done.
Qed.

(** The matcher finds only what the pattern denotes ... *)
Lemma match_parts_sound ps : forall s kw,
  match_parts ps s = Some kw -> matches ps s kw.
Proof.
  induction ps as [|[l|c n] ps IH]; intros s kw; simpl.
  - destruct (String.eqb_spec s ""); [|done].
    intros [= <-]. subst. constructor.
  - destruct (strip_prefix l s) as [s'|] eqn:Hp; [|done].
    apply strip_prefix_Some in Hp as ->. intros H. constructor. auto.
  - intros H. apply munch_sound in H as (v & rest & -> & Hv & Hall & Hk).
    simpl in Hk. destruct (match_parts ps rest) as [kw'|] eqn:Hm; [|done].
    injection Hk as <-. constructor; [|auto].
    by apply accepts_spec.
Qed.

(** ... and finds a match whenever the pattern denotes one. *)
Lemma match_parts_complete ps s kw :
  matches ps s kw -> is_Some (match_parts ps s).
Proof.
  induction 1 as [|l ps s kw _ IH|c n ps v s kw Hacc _ IH]; simpl.
  - eauto.
  - by rewrite strip_prefix_append.
  - apply accepts_spec in Hacc as [Hv Hall].
    apply munch_complete; [done | done |]. simpl.
    destruct IH as [kw' ->]. simpl. eauto.
Qed.

Theorem match_parts_iff ps s :
  is_Some (match_parts ps s) <-> exists kw, matches ps s kw.
Proof.
  split.
  - intros [kw H]. exists kw. by apply match_parts_sound.
  - intros [kw H]. by eapply match_parts_complete.
Qed.

End RouteFacts.

Module UrlsFacts.
Import Str StrFacts Route RouteFacts Urls.

Lemma forallb_impl (f g : ascii -> bool) s :
  (forall a, f a = true -> g a = true) ->
  forallb f s = true -> forallb g s = true.
Proof.
  intros Hfg. induction s as [|a s IH]; simpl; [done|].
  intros [Ha Hs]%andb_prop. by rewrite (Hfg a Ha), IH.
Qed.

Lemma digit_not_slash a : is_digit a = true -> in_class ConvStr a = true.
Proof.
  simpl. destruct (Ascii.eqb_spec a "/") as [->|]; [|done].
  by vm_compute.
Qed.

Lemma digits_segment d :
  forallb is_digit d = true -> forallb (in_class ConvStr) d = true.
Proof. apply forallb_impl, digit_not_slash. Qed.

Lemma slug_not_slash a : in_class ConvSlug a = true -> a <> "/"%char.
Proof. intros H ->. by vm_compute in H. Qed.

(** A text is cut at its last separator in one way only. *)
Lemma cut_last_unique f sep a b x y :
  f sep = false ->
  forallb f x = true -> forallb f y = true ->
  a ++ String sep x = b ++ String sep y -> a = b /\ x = y.
Proof.
  intros Hsep Hx Hy. revert b.
  induction a as [|c a IH]; intros [|d b]; simpl; intros H.
  - by injection H.
  - injection H as <- ->. rewrite forallb_append in Hx. simpl in Hx.
    rewrite Hsep in Hx. by rewrite andb_false_r in Hx.
  - injection H as -> <-. rewrite forallb_append in Hy. simpl in Hy.
    rewrite Hsep in Hy. by rewrite andb_false_r in Hy.
  - injection H as -> H. destruct (IH b H) as [-> ->]. done.
Qed.

Lemma append_cons_assoc a c b t :
  a ++ String c (b ++ t) = (a ++ String c b) ++ t.
Proof. by rewrite append_assoc. Qed.

Lemma resolve_in_miss u rest p :
  match_route (route u) p = None ->
  resolve_in (u :: rest) p = resolve_in rest p.
Proof. simpl. by intros ->. Qed.

Lemma resolve_in_hit u rest p kw :
  match_route (route u) p = Some kw ->
  resolve_in (u :: rest) p = Some (ResolverMatch (callback u) kw (name u)).
Proof. simpl. by intros ->. Qed.

(** Every route of the URL configuration is well formed. *)
Lemma urlpatterns_well_formed u :
  In u urlpatterns -> is_Some (route_to_parts (route u)).
Proof.
  unfold urlpatterns. simpl.
  intros H. repeat (destruct H as [<-|H]; [by vm_compute; eauto|]). done.
Qed.

(** Replace the parse of a closed route by its value. *)
Ltac parse_routes :=
  repeat match goal with
  | |- context [route_to_parts ?r] =>
      let v := eval vm_compute in (route_to_parts r) in
      change (route_to_parts r) with v
  | H : context [route_to_parts ?r] |- _ =>
      let v := eval vm_compute in (route_to_parts r) in
      change (route_to_parts r) with v in H
  end.

Ltac invert_matches :=
  repeat match goal with
  | H : matches (_ :: _) _ _ |- _ => inversion H; clear H; subst
  | H : matches [] _ _ |- _ => inversion H; clear H; subst
  end.

(** The group listing: every path [group/<slug>/] with an acceptable
    slug goes to [group_posts] with that slug. *)
Lemma resolve_group sl :
  accepts ConvSlug sl = true ->
  resolve ("group/" ++ sl ++ "/")
  = Some (ResolverMatch group_posts [("slug", ArgStr sl)] (Some "group")).
Proof.
  intros [Hne Hall]%accepts_spec.
  unfold resolve, urlpatterns.
  do 3 (rewrite resolve_in_miss; [|reflexivity]).
  apply resolve_in_hit. unfold match_route. simpl route. parse_routes.
  simpl. apply munch_greedy; [done | done | by vm_compute |].
  simpl. by destruct sl.
Qed.


Ltac pick_patterns Hu Hv :=
  unfold urlpatterns in Hu; simpl in Hu, Hv;
  repeat (destruct Hu as [<-|Hu]; [simpl in Hv|]);
  try contradiction;
  try (exfalso; clear -Hv; intuition discriminate);
  clear Hv.

Lemma post_patterns u :
  In u urlpatterns -> In (callback u) post_views ->
  u = path "<str:username>/<int:post_id>/" post_view (Some "post")
  \/ u = path "<str:username>/<int:post_id>/edit/" post_edit
           (Some "post_edit")
  \/ u = path "<username>/<int:post_id>/comment/" add_comment
           (Some "add_comment").
Proof. intros Hu Hv. pick_patterns Hu Hv; auto. Qed.

Lemma post_route_shape u p kw :
  In u urlpatterns -> In (callback u) post_views ->
  match_route (route u) p = Some kw ->
  exists usr d,
    p = usr ++ "/" ++ d ++ "/" ++ post_tail (callback u)
    /\ accepts ConvStr usr = true /\ accepts ConvInt d = true
    /\ kw = [("username", ArgStr usr); ("post_id", ArgInt (decimal d))].
Proof.
  intros Hu Hv.
  destruct (post_patterns u Hu Hv) as [-> | [-> | ->]];
    unfold match_route; simpl route; parse_routes;
    intros Hm%match_parts_sound; invert_matches;
    eexists _, _; simpl; (split; [reflexivity|]); done.
Qed.

Lemma post_route_complete u usr d :
  In u urlpatterns -> In (callback u) post_views ->
  accepts ConvStr usr = true -> accepts ConvInt d = true ->
  is_Some (match_route (route u)
             (usr ++ "/" ++ d ++ "/" ++ post_tail (callback u))).
Proof.
  intros Hu Hv Husr Hd.
  destruct (post_patterns u Hu Hv) as [-> | [-> | ->]];
    unfold match_route; simpl route; parse_routes;
    simpl callback; simpl post_tail;
    eapply match_parts_complete;
    (apply (matches_param _ _ _ usr); [done|]);
    apply (matches_lit "/");
    (apply (matches_param _ _ _ d); [done|]).
  - apply (matches_lit "/" [] ""). constructor.
  - apply (matches_lit "/edit/" [] ""). constructor.
  - apply (matches_lit "/comment/" [] ""). constructor.
Qed.

Lemma username_patterns u :
  In u urlpatterns -> In (callback u) username_views ->
  u = path "<str:username>/follow/" profile_follow (Some "profile_follow")
  \/ u = path "<str:username>/unfollow/" profile_unfollow
           (Some "profile_unfollow")
  \/ u = path "<str:username>/" profile (Some "profile")
  \/ In (callback u) post_views.
Proof.
  intros Hu Hv. pick_patterns Hu Hv; simpl; auto 10.
Qed.

Lemma matches_lit_end l : matches [Lit l] l [].
Proof.
  rewrite <- (append_nil_r l) at 2. apply matches_lit, matches_nil.
Qed.

Lemma matches_slash_int d l n :
  accepts ConvInt d = true ->
  matches [Lit "/"; Param ConvInt n; Lit l] (String "/" (d ++ l))
    [(n, ArgInt (decimal d))].
Proof.
  intros Hd. apply (matches_lit "/").
  apply (matches_param ConvInt); [done | apply matches_lit_end].
Qed.

Lemma accepts_int_segment d :
  accepts ConvInt d = true -> forallb (in_class ConvStr) d = true.
Proof. intros [_ H]%accepts_spec. by apply digits_segment. Qed.

(** A route that begins with a username matches the URL made for the
    text [usr] exactly when [usr] is a non-empty text without [/]. *)
Lemma username_route_accepts u ps usr d :
  In u urlpatterns -> In (callback u) username_views ->
  route_to_parts (route u) = Some ps ->
  accepts ConvInt d = true ->
  converter_of "username" ps = Some ConvStr
  /\ (is_Some (match_parts ps
                (instantiate ps [("username", usr); ("post_id", d)]))
      <-> accepts ConvStr usr = true).
Proof.
  intros Hu Hv Hps Hd.
  assert (forallb (in_class ConvStr) d = true) as Hseg
    by by apply accepts_int_segment.
  destruct (username_patterns u Hu Hv) as [-> | [-> | [-> | Hp]]].
  4: destruct (post_patterns u Hu Hp) as [-> | [-> | ->]].
  all: clear Hu Hv; try clear Hp.
  all: simpl route in Hps; parse_routes; injection Hps as <-.
  all: split; [reflexivity|].
  all: simpl instantiate; split.
  all: try (intros [kw Hm]; apply match_parts_sound in Hm;
            invert_matches).
  all: try (intros Husr; eapply match_parts_complete;
            (apply (matches_param _ _ _ usr); [done|])).
  all: simpl in *.
  all: try (apply append_inv_tail in H3 as ->; done).
  all: try apply matches_lit_end.
  all: try by apply matches_slash_int.
  all: rewrite !append_cons_assoc in H3; apply append_inv_tail in H3;
    apply (cut_last_unique (in_class ConvStr)) in H3 as [-> _];
    [done | done | by apply accepts_int_segment | done].
Qed.

Ltac pick_from L :=
  lazymatch L with
  | ?x :: ?r =>
      first [ by (exists x; split; [simpl; tauto | split; reflexivity])
            | pick_from r ]
  end.

Ltac pick_pattern :=
  lazymatch goal with
  | |- exists u, In u ?L /\ _ =>
      let L' := eval cbv [firstn urlpatterns] in L in pick_from L'
  end.

(** C1 does not hold as it is stated: [/justpage/] is a declared route
    and no row of the table. *)
Lemma url_surface_differs_from_table :
  ~ (forall r, In r url_surface <-> In r Spec.url_table).
Proof.
  intros H. destruct (H "/justpage/") as [H1 _].
  assert (In "/justpage/" url_surface) as Hin by (vm_compute; tauto).
  apply H1 in Hin. vm_compute in Hin.
  repeat (destruct Hin as [Hin|Hin]; [discriminate Hin|]). done.
Qed.

(** C1, amended: every route of [urlpatterns] is well formed, every row
    of the spec's table is a declared route, and the declared routes
    are the rows of the table and [/justpage/]. *)
Theorem url_surface_is_table_and_justpage :
  length url_surface = length urlpatterns
  /\ forall r, In r url_surface <-> (In r Spec.url_table \/ r = "/justpage/").
Proof.
  split; [reflexivity|].
  intros r.
  change url_surface with
    ["/404/"; "/500/"; "/"; "/group/<slug>/"; "/new/"; "/justpage/";
     "/follow/"; "/<username>/follow/"; "/<username>/unfollow/";
     "/<username>/"; "/<username>/<post_id>/";
     "/<username>/<post_id>/edit/"; "/<username>/<post_id>/comment/"].
  unfold Spec.url_table. simpl. intuition congruence.
Qed.

(** C7: [urlpatterns] binds the path [404/] to [page_not_found] and the
    path [500/] to [server_error], and these paths are dispatched to
    them. *)
Theorem error_pages_are_routed :
  In (path "404/" page_not_found (Some "404")) urlpatterns
  /\ In (path "500/" server_error (Some "500")) urlpatterns
  /\ resolve "404/" = Some (ResolverMatch page_not_found [] (Some "404"))
  /\ resolve "500/" = Some (ResolverMatch server_error [] (Some "500")).
Proof.
  split_and!; [by left | by right; left | reflexivity | reflexivity].
Qed.

(** C8: the literal routes and the group route stand before the
    username catch-all in [urlpatterns]; a request for a literal path
    is dispatched to its own view and not to [profile], although the
    catch-all pattern matches the path too and would take it if it
    came first; a request for [group/<slug>/] goes to [group_posts]. *)
Theorem literal_routes_shadow_username l v sl :
  In (l, v) literal_routes ->
  accepts ConvSlug sl = true ->
  (exists before after,
      urlpatterns = (before ++ profile_pattern :: after)%list
      /\ In group_pattern before
      /\ exists u, In u before /\ route u = l /\ callback u = v)
  /\ func <$> resolve l = Some v
  /\ v <> profile
  /\ is_Some (match_route (route profile_pattern) l)
  /\ func <$> resolve_in (profile_pattern :: urlpatterns) l = Some profile
  /\ resolve ("group/" ++ sl ++ "/")
     = Some (ResolverMatch group_posts [("slug", ArgStr sl)]
               (Some "group")).
Proof.
  intros Hl Hsl. split; [|split_and!].
  - exists (firstn 9 urlpatterns), (skipn 10 urlpatterns).
    split; [reflexivity|]. split; [simpl; tauto|].
    simpl in Hl.
    repeat (destruct Hl as [[= <- <-]|Hl]; [pick_pattern|]).
    done.
  - simpl in Hl.
    repeat (destruct Hl as [[= <- <-]|Hl]; [reflexivity|]). done.
  - simpl in Hl.
    repeat (destruct Hl as [[= <- <-]|Hl]; [discriminate|]). done.
  - simpl in Hl.
    repeat (destruct Hl as [[= <- <-]|Hl]; [by vm_compute; eauto|]). done.
  - simpl in Hl.
    repeat (destruct Hl as [[= <- <-]|Hl]; [reflexivity|]). done.
  - by apply resolve_group.
Qed.

Lemma literal_routes_shadow_username_witness :
  func <$> resolve "follow/" = Some follow_index
  /\ resolve "group/test-slug/"
     = Some (ResolverMatch group_posts [("slug", ArgStr "test-slug")]
               (Some "group")).
Proof.
  destruct (literal_routes_shadow_username "follow/" follow_index
              "test-slug") as (_ & H1 & _ & _ & _ & H2).
  - simpl. tauto.
  - reflexivity.
  - split; [exact H1 | exact H2].
Defined.

(** C9: a route of a single post ([post], [post_edit], [add_comment])
    matches a path only when the path is a username segment, a second
    segment that is a non-empty run of the digits 0 to 9, and the
    route's ending; the post id passed on is the number the digits
    spell.  Every such path is matched, and a path of two segments
    whose second segment is not such a run is matched by none of the
    three. *)
Theorem post_id_segment_is_decimal u :
  In u urlpatterns -> In (callback u) post_views ->
  (forall p kw,
      match_route (route u) p = Some kw ->
      exists usr d,
        p = usr ++ "/" ++ d ++ "/" ++ post_tail (callback u)
        /\ accepts ConvStr usr = true
        /\ d <> "" /\ forallb is_digit d = true
        /\ kw = [("username", ArgStr usr);
                 ("post_id", ArgInt (decimal d))])
  /\ (forall usr d,
        accepts ConvStr usr = true -> accepts ConvInt d = true ->
        is_Some (match_route (route u)
                   (usr ++ "/" ++ d ++ "/" ++ post_tail (callback u))))
  /\ (forall usr seg,
        forallb (in_class ConvStr) usr = true ->
        forallb (in_class ConvStr) seg = true ->
        accepts ConvInt seg = false ->
        match_route (route u) (usr ++ "/" ++ seg ++ "/") = None).
Proof.
  intros Hu Hv. split_and!.
  - intros p kw Hm.
    destruct (post_route_shape u p kw Hu Hv Hm)
      as (usr & d & -> & Husr & Hd & ->).
    exists usr, d. apply accepts_spec in Hd as [? ?]. done.
  - intros usr d. by apply post_route_complete.
  - intros usr seg Husr Hseg Hno.
    destruct (match_route _ _) as [kw|] eqn:Hm; [exfalso|done].
    destruct (post_route_shape u _ kw Hu Hv Hm)
      as (usr' & d & Heq & [_ Husr']%accepts_spec & Hd & _).
    simpl in Heq.
    apply (cut_unique (in_class ConvStr)) in Heq as [-> Heq];
      [|done..].
    apply (cut_unique (in_class ConvStr)) in Heq as [-> _];
      [congruence | done | done | by apply accepts_int_segment].
Qed.

Lemma post_id_segment_is_decimal_witness :
  is_Some (match_route "<str:username>/<int:post_id>/" "leo/42/")
  /\ match_route "<str:username>/<int:post_id>/" "leo/x42/" = None.
Proof.
  destruct (post_id_segment_is_decimal
              (path "<str:username>/<int:post_id>/" post_view
                 (Some "post")))
    as (_ & H2 & H3).
  - simpl. tauto.
  - simpl. tauto.
  - split.
    + apply (H2 "leo" "42"); reflexivity.
    + apply (H3 "leo" "x42"); reflexivity.
Defined.

(** C10: [add_comment] declares its first component as [<username>],
    the other username routes as [<str:username>]; both spellings give
    the [str] converter, which accepts the non-empty texts without
    [/], so for every text the comment route matches the URL made for
    it exactly when any other username route matches the URL made for
    it. *)
Theorem untyped_username_is_str uc u psc ps usr d :
  In uc urlpatterns -> callback uc = add_comment ->
  In u urlpatterns -> In (callback u) username_views ->
  route_to_parts (route uc) = Some psc ->
  route_to_parts (route u) = Some ps ->
  accepts ConvInt d = true ->
  let kw := [("username", usr); ("post_id", d)] in
  route uc = "<username>/<int:post_id>/comment/"
  /\ (callback u <> add_comment ->
      String.prefix "<str:username>/" (route u) = true)
  /\ route_to_parts (route uc)
     = route_to_parts "<str:username>/<int:post_id>/comment/"
  /\ converter_of "username" psc = Some ConvStr
  /\ converter_of "username" ps = Some ConvStr
  /\ (accepts ConvStr usr = true
      <-> usr <> ""
          /\ forallb (fun a => negb (Ascii.eqb a "/")) usr = true)
  /\ (is_Some (match_parts psc (instantiate psc kw))
      <-> is_Some (match_parts ps (instantiate ps kw))).
Proof.
  intros Huc Hvc Hu Hv Hpsc Hps Hd kw.
  assert (In (callback uc) username_views) as Hvc'
    by (rewrite Hvc; simpl; tauto).
  destruct (username_route_accepts uc psc usr d Huc Hvc' Hpsc Hd)
    as [Hc1 Hm1].
  destruct (username_route_accepts u ps usr d Hu Hv Hps Hd)
    as [Hc2 Hm2].
  split_and!; try done.
  - clear -Huc Hvc. unfold urlpatterns in Huc. simpl in Huc.
    repeat (destruct Huc as [<-|Huc]; [try discriminate Hvc|]);
      [reflexivity | done].
  - clear -Hu Hv. intros Hne.
    destruct (username_patterns u Hu Hv) as [-> | [-> | [-> | Hp]]];
      try reflexivity.
    destruct (post_patterns u Hu Hp) as [-> | [-> | ->]];
      try reflexivity.
    by destruct Hne.
  - clear -Huc Hvc. unfold urlpatterns in Huc. simpl in Huc.
    repeat (destruct Huc as [<-|Huc]; [try discriminate Hvc|]);
      [reflexivity | done].
  - apply accepts_spec.
  - unfold kw. by rewrite Hm1, Hm2.
Qed.

Lemma untyped_username_is_str_witness :
  is_Some (match_route "<username>/<int:post_id>/comment/"
             "leo/42/comment/")
  <-> is_Some (match_route "<str:username>/" "leo/").
Proof.
  pose proof (untyped_username_is_str
    (path "<username>/<int:post_id>/comment/" add_comment
       (Some "add_comment"))
    profile_pattern
    [Param ConvStr "username"; Lit "/"; Param ConvInt "post_id";
     Lit "/comment/"]
    [Param ConvStr "username"; Lit "/"]
    "leo" "42") as H.
  simpl in H.
  destruct H as (_ & _ & _ & _ & _ & _ & H);
    [tauto | reflexivity | tauto | tauto | reflexivity | reflexivity
    | reflexivity |].
  exact H.
Defined.

End UrlsFacts.

(** * The paginator *)

Module PaginatorFacts.
Import Paginator.

Section Pages.
Context {A : Type}.
Variable objects : list A.
Variable per_page : nat.

Lemma page_length n :
  length (object_list (page objects per_page n))
  = Nat.min per_page (length objects - (n - 1) * per_page).
Proof.
  unfold page, count. simpl.
  rewrite length_firstn, length_skipn.
  destruct (Nat.leb_spec (length objects) ((n - 1) * per_page + per_page));
    lia.
Qed.

Lemma page_subset n x :
  In x (object_list (page objects per_page n)) -> In x objects.
Proof.
  unfold page. simpl. rewrite <- !list_elem_of_In. intros H.
  eapply subseteq_drop, subseteq_take, H.
Qed.

Lemma get_page_is_page raw :
  exists n, get_page objects per_page raw = page objects per_page n.
Proof.
  unfold get_page.
  destruct (parse_number raw) as [| |n]; eauto.
  destruct (n <? 1)%nat; eauto.
  destruct (num_pages objects per_page <? n)%nat; eauto.
Qed.

Lemma get_page_length_le raw :
  length (object_list (get_page objects per_page raw)) <= per_page.
Proof.
  destruct (get_page_is_page raw) as [n ->]. rewrite page_length. lia.
Qed.

Lemma get_page_subset raw x :
  In x (object_list (get_page objects per_page raw)) -> In x objects.
Proof.
  destruct (get_page_is_page raw) as [n ->]. apply page_subset.
Qed.
End Pages.

End PaginatorFacts.

(** * The views *)

Module ViewsFacts.
Import Str StrFacts Route RouteFacts Urls UrlsFacts.
Import Models Paginator PaginatorFacts Views.

Lemma split_first_none sep s :
  forallb (fun a => negb (Ascii.eqb a sep)) s = true ->
  split_first sep s = (s, None).
Proof.
  induction s as [|a s IH]; simpl; [done|].
  intros [Ha Hs]%andb_prop. apply negb_true_iff in Ha. rewrite Ha.
  by rewrite IH.
Qed.

Lemma slug_no_query sl :
  accepts ConvSlug sl = true ->
  forallb (fun a => negb (Ascii.eqb a "?")) sl = true.
Proof.
  intros [_ H]%accepts_spec. revert H. apply forallb_impl.
  intros a Ha. destruct (Ascii.eqb_spec a "?") as [->|]; [|done].
  by vm_compute in Ha.
Qed.

Section Templates.
Context {Content : Type}.
Variable ordering : list Post -> list Post.
Variable render : string -> Context -> Content.
Hypothesis ordering_perm : forall l, ordering l ≡ₚ l.

#[local] Abbreviation get_response := (get_response ordering render).
#[local] Abbreviation index := (index ordering render).
#[local] Abbreviation group_posts := (group_posts ordering render).

Lemma get_response_index who s :
  get_response who "/" s
  = cache_page index {| user := who; full_path := "/"; query := "" |} s.
Proof. reflexivity. Qed.

Lemma get_response_index_page2 who s :
  get_response who "/?page=2" s
  = cache_page index
      {| user := who; full_path := "/?page=2"; query := "page=2" |} s.
Proof. reflexivity. Qed.

Lemma get_response_group who sl s :
  accepts ConvSlug sl = true ->
  get_response who ("/group/" ++ sl ++ "/") s
  = (group_posts {| user := who;
                    full_path := "/group/" ++ sl ++ "/";
                    query := "" |} sl (db s), s).
Proof.
  intros Hsl. unfold Views.get_response.
  rewrite split_first_none.
  2:{ simpl. rewrite forallb_append, slug_no_query by done. done. }
  change (strip_prefix "/" ("/group/" ++ sl ++ "/"))
    with (Some ("group/" ++ sl ++ "/")).
  cbv beta iota. rewrite resolve_group by done. reflexivity.
Qed.

Lemma ordering_length l : length (ordering l) = length l.
Proof. apply Permutation_length, ordering_perm. Qed.

Lemma ordering_In l x : In x (ordering l) <-> In x l.
Proof.
  split; apply Permutation_in; [|symmetry]; apply ordering_perm.
Qed.

Lemma ordering_nil : ordering [] = [].
Proof. apply Permutation_nil_r, ordering_perm. Qed.

Lemma ordering_singleton x : ordering [x] = [x].
Proof. apply Permutation_singleton_r, ordering_perm. Qed.


Lemma filter_all {A} (f : A -> bool) l :
  Forall (fun x => f x = true) l -> List.filter f l = l.
Proof.
  induction 1 as [|x l Hx _ IH]; simpl; [done|]. by rewrite Hx, IH.
Qed.

(** A request the cache has no entry for runs the index view. *)
Lemma cache_page_miss request s :
  cache s !! full_path request = None ->
  cache_page index request s
  = (index request (db s),
     {| db := db s;
        cache := <[full_path request :=
                     render "index.html"
                       {| ctx_page :=
                            get_page (ordering (posts (db s))) per_page
                              (query_get "page" (query request));
                          ctx_group := None |}]> (cache s) |}).
Proof. unfold cache_page. by intros ->. Qed.

Lemma cache_page_hit request s body :
  cache s !! full_path request = Some body ->
  cache_page index request s = (FromCache body, s).
Proof. unfold cache_page. by intros ->. Qed.

Lemma query_get_absent : query_get "page" "" = None.
Proof. reflexivity. Qed.

Lemma query_get_page2 : query_get "page" "page=2" = Some "2".
Proof. reflexivity. Qed.

Lemma first_page_length (l : list Post) :
  length (object_list (get_page l per_page None))
  = Nat.min 10 (length l).
Proof.
  change (get_page l per_page None) with (page l 10 1).
  rewrite page_length. lia.
Qed.

Lemma second_page_length (l : list Post) :
  10 < length l ->
  length (object_list (get_page l per_page (Some "2")))
  = Nat.min 10 (length l - 10).
Proof.
  intros Hl. unfold get_page.
  change (parse_number (Some "2")) with (Number 2). cbv iota.
  change (2 <? 1)%nat with false. cbv iota.
  assert (2 <= num_pages l per_page) as Hn.
  { unfold num_pages, count, per_page.
    apply Nat.div_le_lower_bound; lia. }
  apply Nat.ltb_ge in Hn. rewrite Hn.
  rewrite page_length. unfold per_page. lia.
Qed.

(** C2: the feed is cut into pages of ten.  No page of the index
    holds more than ten posts; when the posts of the site are the
    thirteen posts of one author, a first request for the index page
    gives a context whose page lists ten posts and a first request
    for its second page one whose page lists three. *)
Theorem index_paginated_by_ten who (a : User) (s : Site Content) :
  Forall (fun p => author p = a) (posts (db s)) ->
  length (List.filter (fun p => bool_decide (author p = a))
            (posts (db s))) = 13 ->
  cache s !! "/" = None ->
  cache s !! "/?page=2" = None ->
  per_page = 10
  /\ (forall request d tpl ctx body,
        index request d = Rendered tpl ctx body ->
        length (object_list (ctx_page ctx)) <= 10)
  /\ (exists ctx,
        response_context (get_response who "/" s).1 = Some ctx
        /\ length (object_list (ctx_page ctx)) = 10)
  /\ (exists ctx,
        response_context (get_response who "/?page=2" s).1 = Some ctx
        /\ length (object_list (ctx_page ctx)) = 3)
  /\ (exists ctx,
        response_context
          (get_response who "/?page=2" (get_response who "/" s).2).1
        = Some ctx
        /\ length (object_list (ctx_page ctx)) = 3).
Proof.
  intros Hall Hcount Hc1 Hc2.
  assert (length (ordering (posts (db s))) = 13) as Hlen.
  { rewrite ordering_length. rewrite filter_all in Hcount; [done|].
    eapply Forall_impl; [exact Hall|].
    intros p Hp. by apply bool_decide_eq_true. }
  split_and!.
  - reflexivity.
  - intros request d tpl ctx body [= _ <- _]. simpl.
    apply get_page_length_le.
  - rewrite get_response_index, cache_page_miss by done.
    eexists; split; [reflexivity|]. cbn [ctx_page].
    cbn [query]. rewrite query_get_absent.
    rewrite first_page_length. lia.
  - rewrite get_response_index_page2, cache_page_miss by done.
    eexists; split; [reflexivity|]. cbn [ctx_page].
    cbn [query]. rewrite query_get_page2.
    rewrite second_page_length; lia.
  - rewrite get_response_index, cache_page_miss by done.
    rewrite get_response_index_page2. cbn [snd].
    rewrite cache_page_miss
      by (simpl; by rewrite lookup_insert_ne).
    eexists; split; [reflexivity|]. cbn [ctx_page].
    cbn [query]. rewrite query_get_page2.
    rewrite second_page_length; cbn [db]; lia.
Qed.

Lemma posts_after_create t a g (s : Site Content) :
  posts (db (create_post t a g s).2)
  = (posts (db s) ++ [(create_post t a g s).1])%list.
Proof. reflexivity. Qed.



(** A post that lands on the first page changes what the page
    lists: so it is when the feed has room for it. *)
Lemma first_page_changes t a g (s : Site Content) :
  length (posts (db s)) < per_page ->
  object_list (get_page (ordering (posts (db (create_post t a g s).2)))
                 per_page None)
  <> object_list (get_page (ordering (posts (db s))) per_page None).
Proof.
  intros Hfew Heq. apply (f_equal (@length Post)) in Heq.
  rewrite !first_page_length, !ordering_length in Heq.
  rewrite posts_after_create, length_app in Heq. cbn [length] in Heq.
  unfold per_page in Hfew. lia.
Qed.


Lemma group_page_only_group request sl d tpl ctx body :
  group_posts request sl d = Rendered tpl ctx body ->
  exists g,
    ctx_group ctx = Some g /\ slug g = sl /\ In g (groups d)
    /\ forall x, In x (object_list (ctx_page ctx)) ->
                 In x (posts d) /\ group x = Some (group_id g).
Proof.
  unfold Views.group_posts.
  destruct (List.find _ (groups d)) as [g|] eqn:Hfind; [|done].
  apply find_some in Hfind as [Hin Hslug].
  apply String.eqb_eq in Hslug.
  intros [= _ <- _]. exists g. split_and!; try done.
  intros x Hx. cbn [ctx_page] in Hx.
  apply get_page_subset, ordering_In, filter_In in Hx as [Hx Hg].
  split; [done|]. unfold in_group in Hg.
  destruct (group x) as [k|]; [|done].
  apply Nat.eqb_eq in Hg. by subst.
Qed.

(** C4: the group page lists the posts of its group and no others.
    Whatever the site holds, every post on a page of a group
    belongs to that group; and when the site's one post was created
    in group [A], the page of [A] lists exactly that post and the
    page of another group [B] lists nothing. *)
Theorem group_page_filters_by_group who (s : Site Content)
    (A B : Group) (p : Post) :
  accepts ConvSlug (slug A) = true ->
  accepts ConvSlug (slug B) = true ->
  List.find (fun g => String.eqb (slug g) (slug A)) (groups (db s))
  = Some A ->
  List.find (fun g => String.eqb (slug g) (slug B)) (groups (db s))
  = Some B ->
  group_id A <> group_id B ->
  posts (db s) = [p] ->
  group p = Some (group_id A) ->
  (forall request sl d tpl ctx body x,
      group_posts request sl d = Rendered tpl ctx body ->
      In x (object_list (ctx_page ctx)) ->
      exists g, ctx_group ctx = Some g /\ slug g = sl
                /\ group x = Some (group_id g))
  /\ (exists ctx,
        response_context
          (get_response who ("/group/" ++ slug A ++ "/") s).1 = Some ctx
        /\ ctx_group ctx = Some A
        /\ object_list (ctx_page ctx) = [p]
        /\ length (object_list (ctx_page ctx)) = 1)
  /\ (exists ctx,
        response_context
          (get_response who ("/group/" ++ slug B ++ "/") s).1 = Some ctx
        /\ ctx_group ctx = Some B
        /\ ~ In p (object_list (ctx_page ctx))
        /\ length (object_list (ctx_page ctx)) = 0).
Proof.
  intros HA HB HfA HfB Hne Hposts Hp. split_and!.
  - intros request sl d tpl ctx body x Hr Hx.
    destruct (group_page_only_group _ _ _ _ _ _ Hr)
      as (g & Hg & Hsl & _ & Hall).
    exists g. split_and!; [done | done | by apply Hall].
  - rewrite get_response_group by done.
    unfold Views.group_posts. cbn [fst]. rewrite HfA, Hposts.
    eexists; split; [reflexivity|]. cbn [ctx_page ctx_group query].
    rewrite query_get_absent.
    assert (List.filter (in_group A) [p] = [p]) as ->.
    { simpl. unfold in_group. rewrite Hp. by rewrite Nat.eqb_refl. }
    rewrite ordering_singleton. done.
  - rewrite get_response_group by done.
    unfold Views.group_posts. cbn [fst]. rewrite HfB, Hposts.
    eexists; split; [reflexivity|]. cbn [ctx_page ctx_group query].
    rewrite query_get_absent.
    assert (List.filter (in_group B) [p] = []) as ->.
    { simpl. unfold in_group. rewrite Hp.
      apply Nat.eqb_neq in Hne. by rewrite Hne. }
    rewrite ordering_nil. split_and!; [done | by intros [] | done].
Qed.

End Templates.
End ViewsFacts.

Module TestViewFacts.
Import Route Urls Models Paginator Views Python TestView ViewsFacts.

Lemma as_stored_perm (l : list Post) : as_stored l ≡ₚ l.
Proof. reflexivity. Qed.

Lemma listing_distinguishes (c1 c2 : Context) :
  object_list (ctx_page c1) <> object_list (ctx_page c2) ->
  listing "index.html" c1 <> listing "index.html" c2.
Proof. unfold listing. intros H. exact H. Qed.

Lemma index_paginated_by_ten_witness :
  let s := {| db := (PaginatorViewsTest_setUpClass empty).2;
              cache := (∅ : gmap string (list Post)) |} in
  (exists ctx,
      response_context (get_response as_stored listing None "/" s).1
      = Some ctx
      /\ length (object_list (ctx_page ctx)) = 10)
  /\ (exists ctx,
        response_context
          (get_response as_stored listing None "/?page=2" s).1 = Some ctx
        /\ length (object_list (ctx_page ctx)) = 3).
Proof.
  intros s.
  destruct (index_paginated_by_ten as_stored listing as_stored_perm None
              {| username := "Test-user" |} s)
    as (_ & _ & H1 & H2 & _).
  - cbv. repeat constructor.
  - reflexivity.
  - reflexivity.
  - reflexivity.
  - split; [exact H1 | exact H2].
Defined.



Lemma group_page_filters_by_group_witness :
  let fx := (PostViewTests_setUpClass empty).1 in
  let s := {| db := (PostViewTests_setUpClass empty).2;
              cache := (∅ : gmap string (list Post)) |} in
  (exists ctx,
      response_context
        (get_response as_stored listing None "/group/test-slug/" s).1
      = Some ctx
      /\ length (object_list (ctx_page ctx)) = 1)
  /\ (exists ctx,
        response_context
          (get_response as_stored listing None "/group/slug-test/" s).1
        = Some ctx
        /\ length (object_list (ctx_page ctx)) = 0).
Proof.
  intros fx s.
  destruct (group_page_filters_by_group as_stored listing as_stored_perm
              None s (cls_group fx) (cls_wrong_group fx) (cls_post fx))
    as (_ & (c1 & H1 & _ & _ & L1) & (c2 & H2 & _ & _ & L2)).
  - reflexivity.
  - reflexivity.
  - reflexivity.
  - reflexivity.
  - cbv. lia.
  - reflexivity.
  - reflexivity.
  - split; [exists c1 | exists c2]; split; assumption.
Defined.

Example paginator_tests_pass :
  let '(fx, d) := PaginatorViewsTest_setUpClass empty in
  outcome (test_first_page_containse_ten_records as_stored listing fx
             (fresh_world d))
  = (inr tt, ["/"], 1)
  /\ outcome (test_second_page_containse_three_records as_stored listing
                fx (fresh_world d))
     = (inr tt, ["/?page=2"], 1).
Proof. split; vm_compute; reflexivity. Qed.

Example group_tests_pass :
  let '(fx, d) := PostViewTests_setUpClass empty in
  outcome (run_PostViewTests fx
             (test_group_shows_new_post as_stored listing)
             (fresh_world d))
  = (inr tt, ["/group/test-slug/"], 1)
  /\ outcome (run_PostViewTests fx
                (test_wrong_group_does_not_show_new_post as_stored
                   listing)
                (fresh_world d))
     = (inr tt, ["/group/slug-test/"], 1).
Proof. split; vm_compute; reflexivity. Qed.

Example index_cache_test_passes :
  let '(fx, d) := PostViewTests_setUpClass empty in
  outcome (run_PostViewTests fx (test_index_page_cache as_stored listing)
             (fresh_world d))
  = (inr tt, ["/"; "/"; "/"], 2).
Proof. vm_compute. reflexivity. Qed.

Section Run.
Context {Content : Type} `{EqDecision Content}.

Lemma load_user :
  load_name module_globals follow_frame "user" = inl (NameError "user").
Proof. vm_compute. reflexivity. Qed.

(** C5: [test_follow_unfollow_feauture] reads the name [user], which
    is no local of the method, no global of the module and no
    builtin; whatever the state it is run in, the test ends with
    [NameError] at that first read, before any request and before
    any assertion is evaluated. *)
Theorem follow_test_raises_NameError (fx : PostViewFixture)
    (w : World Content) :
  ~ In "user" (varnames follow_frame)
  /\ module_globals !! "user" = None
  /\ ("user" ∉ builtins)
  /\ run_PostViewTests fx test_follow_unfollow_feauture w
     = (inl (NameError "user"), w).
Proof.
  split_and!.
  - simpl. intuition discriminate.
  - vm_compute. reflexivity.
  - apply (bool_decide_eq_false_1 ("user" ∈ builtins)).
    vm_compute. reflexivity.
  - unfold run_PostViewTests, test_follow_unfollow_feauture.
    unfold mbind, Test_bind, bind, lift. by rewrite load_user.
Qed.

(** C6: the bodies of [test_profile_shows_new_post] and
    [test_only_authorized_client_can_comment] are [pass] alone: run
    in any state, each ends without an error and leaves the state
    as it was, with no request made and no assertion evaluated. *)
Theorem placeholder_tests_do_nothing (fx : PostViewFixture)
    (w : World Content) :
  run_PostViewTests fx test_profile_shows_new_post w = (inr tt, w)
  /\ run_PostViewTests fx test_only_authorized_client_can_comment w
     = (inr tt, w)
  /\ requested (run_PostViewTests fx test_profile_shows_new_post w).2
     = requested w
  /\ held (run_PostViewTests fx test_profile_shows_new_post w).2
     = held w
  /\ requested
       (run_PostViewTests fx test_only_authorized_client_can_comment
          w).2
     = requested w
  /\ held
       (run_PostViewTests fx test_only_authorized_client_can_comment
          w).2
     = held w.
Proof. split_and!; reflexivity. Qed.
End Run.

End TestViewFacts.

(** * The dispatch of every path *)

Module DispatchFacts.
Import Str StrFacts Route RouteFacts Urls UrlsFacts Dispatch.

Lemma split_first_cut u r :
  forallb (in_class ConvStr) u = true ->
  split_first "/" (u ++ String "/" r) = (u, Some r).
Proof.
  induction u as [|a u IH]; simpl; [done|].
  intros [Ha Hu]%andb_prop. apply negb_true_iff in Ha. rewrite Ha.
  by rewrite IH.
Qed.

Lemma str_segment u :
  accepts ConvStr u = true -> forallb (in_class ConvStr) u = true.
Proof. by intros [_ H]%accepts_spec. Qed.

Lemma slug_segment s :
  accepts ConvSlug s = true -> forallb (in_class ConvStr) s = true.
Proof.
  intros [_ H]%accepts_spec. revert H. apply forallb_impl.
  intros a Ha. simpl. destruct (Ascii.eqb_spec a "/") as [->|]; [|done].
  by vm_compute in Ha.
Qed.

Lemma int_is_slug d : accepts ConvInt d = true -> accepts ConvSlug d = true.
Proof.
  intros [Hne H]%accepts_spec. apply accepts_spec. split; [done|].
  revert H. apply forallb_impl. intros a Ha. simpl in *. by rewrite Ha.
Qed.

Lemma append_slash_nonempty v r : v ++ String "/" r <> "".
Proof. by destruct v. Qed.

(** A converter group before a literal that begins with [/] takes the
    whole segment. *)
Lemma match_param_slash c n l ps v rest kw :
  accepts c v = true ->
  in_class c "/" = false ->
  match_parts (Lit (String "/" l) :: ps) (String "/" rest) = Some kw ->
  match_parts (Param c n :: Lit (String "/" l) :: ps)
    (v ++ String "/" rest)
  = Some ((n, to_python c v) :: kw).
Proof.
  intros [Hne Hall]%accepts_spec Hcls Hk.
  cbn [match_parts].
  apply munch_greedy; [done | done | exact Hcls |].
  cbn [match_parts] in Hk. simpl append. by rewrite Hk.
Qed.

Lemma match_lit_slash ps rest :
  match_parts (Lit "/" :: ps) (String "/" rest) = match_parts ps rest.
Proof. reflexivity. Qed.

Ltac matched :=
  apply resolve_in_hit; unfold match_route; simpl route; parse_routes;
  simpl append;
  repeat first
    [ reflexivity
    | rewrite match_lit_slash
    | apply match_param_slash;
      [ first [assumption | by apply int_is_slug] | reflexivity | ] ].

Ltac slash_free :=
  first [ assumption
        | apply str_segment; assumption
        | apply accepts_int_segment; assumption
        | apply slug_segment; assumption ].

(** Cut both sides of an equation between paths at their first [/]. *)
Ltac cut_slash H :=
  simpl in H;
  apply (f_equal (split_first "/")) in H;
  rewrite ?split_first_cut in H by slash_free;
  simpl in H.

Ltac unmatched :=
  let Hm := fresh "Hm" in
  destruct (match_route _ _) as [?|] eqn:Hm; [exfalso|reflexivity];
  unfold match_route in Hm; simpl route in Hm; parse_routes;
  apply match_parts_sound in Hm; invert_matches.

Ltac path_eq tac :=
  match goal with
  | H : @eq string _ _ |- _ => tac H
  end.

(** Close a goal whose hypotheses equate two paths that differ. *)
Ltac differ :=
  path_eq ltac:(fun H =>
    cut_slash H;
    first
      [ discriminate H
      | injection H; clear H; intros; subst;
        first
          [ done
          | congruence
          | by (match goal with
                | E : _ = _ ++ String "/" _ |- _ =>
                    symmetry in E; apply append_slash_nonempty in E
                end)
          | by (match goal with
                | E : _ ++ String "/" _ = _ |- _ =>
                    apply append_slash_nonempty in E
                end)
          | by (match goal with
                | Hn : forall n, In n reserved_usernames -> n <> ?x |- _ =>
                    apply (Hn x); [simpl; tauto | reflexivity]
                end)
          | differ ] ]).

Lemma reserved_are_literal :
  map (fun n => n ++ "/") reserved_usernames = map fst literal_routes.
Proof. reflexivity. Qed.

Lemma resolve_profile u :
  accepts ConvStr u = true ->
  ~ In u reserved_usernames ->
  resolve (u ++ "/")
  = Some (ResolverMatch profile [("username", ArgStr u)] (Some "profile")).
Proof.
  intros Hu Hres.
  assert (forall n, In n reserved_usernames -> n <> u) as Hn
    by (intros n Hn ->; done).
  unfold resolve, urlpatterns.
  do 9 (rewrite resolve_in_miss; [|unmatched; differ]).
  matched.
Qed.

Lemma resolve_post u d :
  accepts ConvStr u = true -> accepts ConvInt d = true ->
  u <> "group" ->
  resolve (u ++ "/" ++ d ++ "/")
  = Some (ResolverMatch post_view
            [("username", ArgStr u); ("post_id", ArgInt (decimal d))]
            (Some "post")).
Proof.
  intros Hu Hd Hne. unfold resolve, urlpatterns.
  do 10 (rewrite resolve_in_miss; [|unmatched; differ]).
  matched.
Qed.

Lemma resolve_post_edit u d :
  accepts ConvStr u = true -> accepts ConvInt d = true ->
  resolve (u ++ "/" ++ d ++ "/edit/")
  = Some (ResolverMatch post_edit
            [("username", ArgStr u); ("post_id", ArgInt (decimal d))]
            (Some "post_edit")).
Proof.
  intros Hu Hd. unfold resolve, urlpatterns.
  do 11 (rewrite resolve_in_miss; [|unmatched; differ]). matched.
Qed.

Lemma resolve_add_comment u d :
  accepts ConvStr u = true -> accepts ConvInt d = true ->
  resolve (u ++ "/" ++ d ++ "/comment/")
  = Some (ResolverMatch add_comment
            [("username", ArgStr u); ("post_id", ArgInt (decimal d))]
            (Some "add_comment")).
Proof.
  intros Hu Hd. unfold resolve, urlpatterns.
  do 12 (rewrite resolve_in_miss; [|unmatched; differ]). matched.
Qed.

Lemma resolve_follow u :
  accepts ConvStr u = true -> u <> "group" ->
  resolve (u ++ "/follow/")
  = Some (ResolverMatch profile_follow [("username", ArgStr u)]
            (Some "profile_follow")).
Proof.
  intros Hu Hne. unfold resolve, urlpatterns.
  do 7 (rewrite resolve_in_miss; [|unmatched; differ]). matched.
Qed.

Lemma resolve_unfollow u :
  accepts ConvStr u = true -> u <> "group" ->
  resolve (u ++ "/unfollow/")
  = Some (ResolverMatch profile_unfollow [("username", ArgStr u)]
            (Some "profile_unfollow")).
Proof.
  intros Hu Hne. unfold resolve, urlpatterns.
  do 8 (rewrite resolve_in_miss; [|unmatched; differ]). matched.
Qed.

(** X1: the profile page of a user is reached at [<username>/] exactly
    when the username is not the first segment of a literal route
    ([404], [500], [new], [justpage], [follow]). *)
Theorem profile_page_dispatch u :
  accepts ConvStr u = true ->
  resolve (u ++ "/")
  = Some (ResolverMatch profile [("username", ArgStr u)] (Some "profile"))
  <-> ~ In u reserved_usernames.
Proof.
  intros Hu. split.
  - intros Hr Hres. simpl in Hres.
    repeat (destruct Hres as [<-|Hres]; [discriminate Hr|]). done.
  - by apply resolve_profile.
Qed.

Lemma profile_page_dispatch_witness :
  resolve "leo/"
  = Some (ResolverMatch profile [("username", ArgStr "leo")]
            (Some "profile"))
  <-> ~ In "leo" reserved_usernames.
Proof. apply (profile_page_dispatch "leo"). reflexivity. Defined.

(** X2: the page of a post, [<username>/<digits>/], goes to
    [post_view] with the username and the number the digits spell,
    except for the username [group], whose post pages go to
    [group_posts] with the digits as the slug. *)
Theorem post_page_dispatch u d :
  accepts ConvStr u = true ->
  accepts ConvInt d = true ->
  resolve (u ++ "/" ++ d ++ "/")
  = Some (if String.eqb u "group"
          then ResolverMatch group_posts [("slug", ArgStr d)]
                 (Some "group")
          else ResolverMatch post_view
                 [("username", ArgStr u); ("post_id", ArgInt (decimal d))]
                 (Some "post")).
Proof.
  intros Hu Hd.
  destruct (String.eqb_spec u "group") as [->|Hne].
  - apply (resolve_group d). by apply int_is_slug.
  - by apply resolve_post.
Qed.

Lemma post_page_dispatch_witness :
  resolve "leo/007/"
  = Some (ResolverMatch post_view
            [("username", ArgStr "leo"); ("post_id", ArgInt 7)]
            (Some "post"))
  /\ resolve "group/007/"
     = Some (ResolverMatch group_posts [("slug", ArgStr "007")]
               (Some "group")).
Proof.
  split.
  - apply (post_page_dispatch "leo" "007"); reflexivity.
  - apply (post_page_dispatch "group" "007"); reflexivity.
Defined.

(** X3: the edit and comment pages of a post are never shadowed:
    [<username>/<digits>/edit/] goes to [post_edit] and
    [<username>/<digits>/comment/] to [add_comment] for every
    username, [group] and the literal names included. *)
Theorem edit_and_comment_dispatch u d :
  accepts ConvStr u = true ->
  accepts ConvInt d = true ->
  resolve (u ++ "/" ++ d ++ "/edit/")
  = Some (ResolverMatch post_edit
            [("username", ArgStr u); ("post_id", ArgInt (decimal d))]
            (Some "post_edit"))
  /\ resolve (u ++ "/" ++ d ++ "/comment/")
     = Some (ResolverMatch add_comment
               [("username", ArgStr u); ("post_id", ArgInt (decimal d))]
               (Some "add_comment")).
Proof.
  intros Hu Hd. split.
  - by apply resolve_post_edit.
  - by apply resolve_add_comment.
Qed.

Lemma edit_and_comment_dispatch_witness :
  resolve "group/12/edit/"
  = Some (ResolverMatch post_edit
            [("username", ArgStr "group"); ("post_id", ArgInt 12)]
            (Some "post_edit"))
  /\ resolve "group/12/comment/"
     = Some (ResolverMatch add_comment
               [("username", ArgStr "group"); ("post_id", ArgInt 12)]
               (Some "add_comment")).
Proof. apply (edit_and_comment_dispatch "group" "12"); reflexivity. Defined.

(** X4: [<username>/follow/] and [<username>/unfollow/] go to
    [profile_follow] and [profile_unfollow] with the username, except
    for the username [group]: [group/follow/] and [group/unfollow/] go
    to [group_posts] with the slugs [follow] and [unfollow]. *)
Theorem follow_dispatch u :
  accepts ConvStr u = true ->
  resolve (u ++ "/follow/")
  = Some (if String.eqb u "group"
          then ResolverMatch group_posts [("slug", ArgStr "follow")]
                 (Some "group")
          else ResolverMatch profile_follow [("username", ArgStr u)]
                 (Some "profile_follow"))
  /\ resolve (u ++ "/unfollow/")
     = Some (if String.eqb u "group"
             then ResolverMatch group_posts [("slug", ArgStr "unfollow")]
                    (Some "group")
             else ResolverMatch profile_unfollow [("username", ArgStr u)]
                    (Some "profile_unfollow")).
Proof.
  intros Hu.
  destruct (String.eqb_spec u "group") as [->|Hne].
  - split; reflexivity.
  - split; [by apply resolve_follow | by apply resolve_unfollow].
Qed.

Lemma follow_dispatch_witness :
  resolve "group/follow/"
  = Some (ResolverMatch group_posts [("slug", ArgStr "follow")]
            (Some "group"))
  /\ resolve "group/unfollow/"
     = Some (ResolverMatch group_posts [("slug", ArgStr "unfollow")]
               (Some "group")).
Proof. apply (follow_dispatch "group"). reflexivity. Defined.

(** What the resolver answers comes from a pattern of the list that
    matches the path ... *)
Lemma resolve_in_pattern pats p m :
  resolve_in pats p = Some m ->
  exists u, In u pats /\ match_route (route u) p = Some (args m)
            /\ func m = callback u /\ url_name m = name u.
Proof.
  induction pats as [|u pats IH]; simpl; [done|].
  destruct (match_route (route u) p) as [kw|] eqn:Hm.
  - intros [= <-]. exists u. simpl. auto.
  - intros H. destruct (IH H) as (u' & Hin & Hrest). eauto.
Qed.

(** ... and a path some pattern of the list matches is answered. *)
Lemma resolve_in_some pats u p :
  In u pats -> is_Some (match_route (route u) p) ->
  is_Some (resolve_in pats p).
Proof.
  induction pats as [|u' pats IH]; simpl; [done|].
  intros [->|Hin] Hm.
  - destruct Hm as [kw ->]. eauto.
  - destruct (match_route (route u') p); eauto.
Qed.

Lemma last_char_cons a b :
  b <> "" -> last_char (String a b) = last_char b.
Proof. by destruct b. Qed.

Lemma last_char_append a b :
  b <> "" -> last_char (a ++ b) = last_char b.
Proof.
  intros Hb. induction a as [|c a IH]; simpl; [done|].
  rewrite <- IH. apply last_char_cons. by destruct a, b.
Qed.

Ltac last_slash :=
  cbn [String.append];
  repeat first
    [ reflexivity
    | rewrite last_char_append by first [apply append_slash_nonempty | done]
    | rewrite last_char_cons by first [apply append_slash_nonempty | done] ].

(** X5: the index is the only page without a trailing [/]: a path
    the resolver answers is either the empty path, which goes to
    [index], or ends with [/] and goes to another view.  So no path
    that lacks the final [/] is dispatched by [urlpatterns], the empty
    one apart. *)
Theorem resolved_paths_end_with_slash p m :
  resolve p = Some m ->
  (p = "" /\ func m = index)
  \/ (last_char p = Some "/"%char /\ func m <> index).
Proof.
  intros Hr. apply resolve_in_pattern in Hr as (u & Hu & Hm & -> & _).
  unfold urlpatterns in Hu. simpl in Hu.
  repeat (destruct Hu as [<-|Hu];
          [unfold match_route in Hm; simpl route in Hm; parse_routes;
           apply match_parts_sound in Hm; invert_matches;
           first [ by left
                 | right; split; [last_slash | discriminate] ]|]).
  done.
Qed.

Lemma resolved_paths_end_with_slash_witness :
  ("leo/42/" = "" /\ post_view = index)
  \/ (last_char "leo/42/" = Some "/"%char /\ post_view <> index).
Proof.
  apply (resolved_paths_end_with_slash "leo/42/"
           (ResolverMatch post_view
              [("username", ArgStr "leo"); ("post_id", ArgInt 42)]
              (Some "post"))).
  reflexivity.
Defined.

(** X9: under [group/], only a slug is a page: for a segment [s]
    without [/], the path [group/s/] is dispatched (to [group_posts])
    exactly when [s] is a non-empty run of letters, digits, [-] and
    [_]; any other segment, which a username route would take, is
    answered by no pattern. *)
Theorem group_path_needs_slug s :
  forallb (in_class ConvStr) s = true ->
  is_Some (resolve ("group/" ++ s ++ "/")) <-> accepts ConvSlug s = true.
Proof.
  intros Hseg. split.
  - destruct (accepts ConvSlug s) eqn:Hs; [done|].
    assert (accepts ConvInt s = false) as Hi.
    { destruct (accepts ConvInt s) eqn:E; [|done].
      apply int_is_slug in E. congruence. }
    intros [m Hr]. exfalso. revert Hr.
    unfold resolve, urlpatterns.
    do 13 (rewrite resolve_in_miss; [|unmatched; differ]).
    done.
  - intros Hs. rewrite resolve_group by done. eauto.
Qed.

Lemma group_path_needs_slug_witness :
  is_Some (resolve "group/a.b/") <-> accepts ConvSlug "a.b" = true.
Proof. apply (group_path_needs_slug "a.b"). reflexivity. Defined.

End DispatchFacts.

(** * [reverse] against [resolve] *)

Module ReverseFacts.
Import Str StrFacts Route RouteFacts Urls UrlsFacts Dispatch DispatchFacts.
Import (notations) Views.
#[local] Abbreviation reverse := Views.reverse.
#[local] Abbreviation to_url := Views.to_url.
#[local] Abbreviation fill := Views.fill.
#[local] Abbreviation lookup_arg := Views.lookup_arg.
#[local] Abbreviation quote := Views.quote.
#[local] Abbreviation unquote := Views.unquote.

Lemma decimal_of_uint d : forall acc,
  decimal_acc acc (NilEmpty.string_of_uint d) = Nat.of_uint_acc d acc.
Proof.
  induction d; intros acc; simpl; [done|..];
    rewrite IHd, Nat.tail_mul_spec; f_equal; lia.
Qed.

Lemma digits_of_uint d :
  forallb is_digit (NilEmpty.string_of_uint d) = true.
Proof. induction d; simpl; [done|..]; exact IHd. Qed.

Lemma to_uint_nonnil n : Nat.to_uint n <> Decimal.Nil.
Proof.
  rewrite <- (Unsigned.of_to n) at 1. rewrite Unsigned.to_of.
  unfold Decimal.unorm. by destruct (Decimal.nzhead _).
Qed.

(** The decimal spelling of a number is accepted by [int] and is read
    back as the number. *)
Lemma to_url_int_accepts n : accepts ConvInt (to_url (ArgInt n)) = true.
Proof.
  apply accepts_spec. split; [|apply digits_of_uint].
  simpl. pose proof (to_uint_nonnil n) as H.
  by destruct (Nat.to_uint n).
Qed.

Lemma to_url_int_decimal n : decimal (to_url (ArgInt n)) = n.
Proof.
  unfold decimal. simpl. rewrite decimal_of_uint. apply Unsigned.of_to.
Qed.

(** A byte that [quote] leaves alone is not the percent sign. *)
Lemma safe_not_percent a :
  Views.url_safe a = true -> Ascii.eqb a "%" = false.
Proof. destruct (Ascii.eqb_spec a "%") as [->|]; [by vm_compute | done]. Qed.

(** The three bytes [quote] writes for a byte are read back as it. *)
Lemma unquote_byte a r :
  unquote
    (String "%"
       (String (Views.hex_digit (nat_of_ascii a / 16))
          (String (Views.hex_digit (nat_of_ascii a mod 16)) r)))
  = String a (unquote r).
Proof. destruct a as [[] [] [] [] [] [] [] []]; reflexivity. Qed.

(** [unquote] undoes [quote]. *)
Lemma unquote_quote s : unquote (quote s) = s.
Proof.
  induction s as [|a s IH]; [done|].
  cbn [Views.quote]. destruct (Views.url_safe a) eqn:Hsafe.
  - cbn [Views.unquote]. rewrite (safe_not_percent a Hsafe). by rewrite IH.
  - rewrite unquote_byte. by rewrite IH.
Qed.

(** Quoting the second of two leading slashes is undone as well. *)
Lemma unquote_escape url :
  unquote (Views.escape_leading_slashes url) = unquote url.
Proof.
  destruct url as [|a [|b r]]; [done | done |].
  unfold Views.escape_leading_slashes.
  destruct (Ascii.eqb_spec a "/") as [->|]; [|done].
  destruct (Ascii.eqb_spec b "/") as [->|]; done.
Qed.

(** How [reverse] succeeds: the pattern of that name, its parameters
    the keys given, and the filled route a path of the pattern. *)
Lemma reverse_built name kw u ps p kw' :
  List.find (fun u => bool_decide (Urls.name u = Some name)) urlpatterns
  = Some u ->
  route_to_parts (route u) = Some ps ->
  Views.same_keys (Views.param_names ps) kw = true ->
  fill ps kw = Some p ->
  matches ps p kw' ->
  exists url, reverse name kw = Some url /\ unquote url = "/" ++ p.
Proof.
  intros Hfind Hps Hkeys Hfill Hm. unfold Views.reverse.
  rewrite Hfind, Hps, Hkeys, Hfill.
  destruct (match_parts_complete _ _ _ Hm) as [kw'' ->].
  eexists. split; [reflexivity|].
  by rewrite unquote_escape, unquote_quote.
Qed.

(** What a URL built by [reverse] is. *)
Lemma reverse_inv name kw url :
  reverse name kw = Some url ->
  exists u ps p kw',
    In u urlpatterns /\ Urls.name u = Some name
    /\ route_to_parts (route u) = Some ps
    /\ fill ps kw = Some p
    /\ match_parts ps p = Some kw'
    /\ unquote url = "/" ++ p.
Proof.
  unfold Views.reverse.
  destruct (List.find _ urlpatterns) as [u|] eqn:Hfind; [|done].
  apply find_some in Hfind as [Hin Hname].
  apply bool_decide_eq_true_1 in Hname.
  destruct (route_to_parts (route u)) as [ps|] eqn:Hps; [|done].
  destruct (Views.same_keys _ kw); [|done].
  destruct (fill ps kw) as [p|] eqn:Hfill; [|done].
  destruct (match_parts ps p) as [kw'|] eqn:Hm; [|done].
  intros [= <-]. exists u, ps, p, kw'. split_and!; try done.
  change (unquote (Views.escape_leading_slashes (quote ("/" ++ p)))
          = "/" ++ p).
  by rewrite unquote_escape, unquote_quote.
Qed.

(** X6: [reverse] never builds a URL the resolver rejects: whatever
    the name and the arguments, the URL it gives, with its percent
    escapes decoded as they are when the URL is requested, begins with
    [/], and the rest is a path the pattern of that name takes, so one
    that [resolve] dispatches. *)
Theorem reverse_is_routed name kw url :
  reverse name kw = Some url ->
  exists p u,
    unquote url = "/" ++ p
    /\ In u urlpatterns /\ Urls.name u = Some name
    /\ is_Some (match_route (route u) p)
    /\ is_Some (resolve p).
Proof.
  intros H.
  apply reverse_inv in H as (u & ps & p & kw' & Hin & Hn & Hps & _ & Hm & Hq).
  assert (is_Some (match_route (route u) p)) as Hroute.
  { unfold match_route. rewrite Hps, Hm. eauto. }
  exists p, u. split_and!; try done.
  by apply (resolve_in_some _ u).
Qed.

Lemma reverse_is_routed_witness :
  exists p u,
    unquote "/a%20b/" = "/" ++ p
    /\ In u urlpatterns /\ Urls.name u = Some "profile"
    /\ is_Some (match_route (route u) p)
    /\ is_Some (resolve p).
Proof.
  apply (reverse_is_routed "profile" [("username", ArgStr "a b")]).
  reflexivity.
Defined.

Lemma matches_lit_eq l ps s s' kw :
  s' = l ++ s -> matches ps s kw -> matches (Lit l :: ps) s' kw.
Proof. intros ->. by constructor. Qed.

Ltac path_of_route :=
  repeat first
    [ apply matches_nil
    | eapply matches_lit_eq; [reflexivity|]
    | apply matches_param;
        [first [assumption | apply to_url_int_accepts]|] ].

Ltac evaluated :=
  match goal with
  | |- ?l = _ =>
      let v := eval vm_compute in l in
      change l with v; reflexivity
  end.

Ltac reversed :=
  eapply reverse_built;
    [ evaluated | evaluated | reflexivity | reflexivity
    | path_of_route ].

Lemma round_trip_intro name kw v p :
  (exists url, reverse name kw = Some url /\ unquote url = "/" ++ p) ->
  resolve p = Some (ResolverMatch v kw (Some name)) ->
  round_trip name kw v p.
Proof. intros (url & H1 & H2) H3. by exists url. Qed.

(** X7: [reverse] and [resolve] are inverse to each other on the
    routes with parameters: [reverse] builds a URL for a name and its
    arguments, and that URL, with its percent escapes decoded as they
    are when it is requested, is dispatched to the view of that name
    with the same arguments (a post id comes back as the same number).
    For [post], [profile_follow] and [profile_unfollow] this needs a
    username other than [group], for [profile] a username that is no
    first segment of a literal route. *)
Theorem reverse_resolve_round_trip u n s :
  accepts ConvStr u = true ->
  accepts ConvSlug s = true ->
  let who := [("username", ArgStr u)] in
  let kw := [("username", ArgStr u); ("post_id", ArgInt n)] in
  let digits := to_url (ArgInt n) in
  round_trip "group" [("slug", ArgStr s)] group_posts
    ("group/" ++ s ++ "/")
  /\ round_trip "post_edit" kw post_edit
       (u ++ "/" ++ digits ++ "/edit/")
  /\ round_trip "add_comment" kw add_comment
       (u ++ "/" ++ digits ++ "/comment/")
  /\ (u <> "group" ->
      round_trip "post" kw post_view (u ++ "/" ++ digits ++ "/")
      /\ round_trip "profile_follow" who profile_follow (u ++ "/follow/")
      /\ round_trip "profile_unfollow" who profile_unfollow
           (u ++ "/unfollow/"))
  /\ (~ In u reserved_usernames ->
      round_trip "profile" who profile (u ++ "/")).
Proof.
  intros Hu Hs who kw digits.
  pose proof (to_url_int_accepts n) as Hd.
  pose proof (to_url_int_decimal n) as Hn.
  split_and!.
  - apply round_trip_intro; [reversed | by apply resolve_group].
  - apply round_trip_intro; [reversed|].
    unfold digits, kw. rewrite resolve_post_edit by done. by rewrite Hn.
  - apply round_trip_intro; [reversed|].
    unfold digits, kw. rewrite resolve_add_comment by done. by rewrite Hn.
  - intros Hne. split_and!.
    + apply round_trip_intro; [reversed|].
      unfold digits, kw. rewrite resolve_post by done. by rewrite Hn.
    + apply round_trip_intro; [reversed | by apply resolve_follow].
    + apply round_trip_intro; [reversed | by apply resolve_unfollow].
  - intros Hres.
    apply round_trip_intro; [reversed | by apply resolve_profile].
Qed.

Lemma reverse_resolve_round_trip_witness :
  round_trip "post" [("username", ArgStr "a b"); ("post_id", ArgInt 7)]
    post_view "a b/7/"
  /\ round_trip "profile" [("username", ArgStr "a b")] profile "a b/".
Proof.
  destruct (reverse_resolve_round_trip "a b" 7 "test-slug")
    as (_ & _ & _ & H1 & H2); [reflexivity | reflexivity |].
  split.
  - apply H1. discriminate.
  - apply H2. simpl. intuition discriminate.
Defined.

(** X8: every named match has a canonical URL: when a path is
    dispatched under a name, [reverse] builds a URL from that name and
    the arguments of the match, and that URL, with its percent escapes
    decoded as they are when it is requested, is dispatched to the
    very same match.  (The decoded URL is the path itself but for a
    post id written with leading zeros.) *)
Theorem resolved_match_reverses p m n :
  resolve p = Some m ->
  url_name m = Some n ->
  exists url p',
    reverse n (args m) = Some url
    /\ unquote url = "/" ++ p'
    /\ resolve p' = Some m.
Proof.
  intros Hr Hname. pose proof Hr as Hr0.
  assert (forall p',
             (exists url, reverse n (args m) = Some url
                          /\ unquote url = "/" ++ p') ->
             resolve p' = Some m ->
             exists url p', reverse n (args m) = Some url
                            /\ unquote url = "/" ++ p'
                            /\ resolve p' = Some m) as Hgive.
  { intros p' (url & H1 & H2) H3. by exists url, p'. }
  apply resolve_in_pattern in Hr as (u & Hu & Hm & Hf & Hnm).
  destruct m as [f kw nm]. simpl in *. subst nm.
  unfold urlpatterns in Hu. simpl in Hu.
  repeat (destruct Hu as [<-|Hu];
          [simpl in Hf, Hname, Hr0 |- *; try discriminate Hname;
           injection Hname as <-; subst f;
           unfold match_route in Hm; simpl route in Hm; parse_routes;
           apply match_parts_sound in Hm; invert_matches|]);
    [..|done].
  all: try (eapply Hgive; [reversed | exact Hr0]).
  all: pose proof (to_url_int_accepts (decimal v0)) as Hd;
    pose proof (to_url_int_decimal (decimal v0)) as Hn.
  - apply (Hgive (v ++ "/" ++ to_url (ArgInt (decimal v0)) ++ "/"));
      [reversed|].
    destruct (String.eqb_spec v "group") as [->|Hne].
    + pose proof (resolve_group v0 (int_is_slug _ H6)) as Hg.
      simpl in Hg, Hr0. rewrite Hg in Hr0. discriminate Hr0.
    + rewrite resolve_post by done. by rewrite Hn.
  - apply (Hgive (v ++ "/" ++ to_url (ArgInt (decimal v0)) ++ "/edit/"));
      [reversed|].
    rewrite resolve_post_edit by done. by rewrite Hn.
  - apply (Hgive (v ++ "/" ++ to_url (ArgInt (decimal v0)) ++ "/comment/"));
      [reversed|].
    rewrite resolve_add_comment by done. by rewrite Hn.
Qed.

Lemma resolved_match_reverses_witness :
  exists url p',
    reverse "post" [("username", ArgStr "a b"); ("post_id", ArgInt 7)]
    = Some url
    /\ unquote url = "/" ++ p'
    /\ resolve p'
       = Some (ResolverMatch post_view
                 [("username", ArgStr "a b"); ("post_id", ArgInt 7)]
                 (Some "post")).
Proof.
  apply (resolved_match_reverses "a b/007/"
           (ResolverMatch post_view
              [("username", ArgStr "a b"); ("post_id", ArgInt 7)]
              (Some "post")) "post"); reflexivity.
Defined.

End ReverseFacts.

(** * The fixtures and the listing tests *)

Module FixtureFacts.
Import Models Paginator PaginatorFacts Views Python TestView ViewsFacts.

(** The key after a freshly given key is the one after it. *)
Lemma next_key_snoc keys :
  next_key (keys ++ [next_key keys]) = S (next_key keys).
Proof.
  unfold next_key. rewrite list_max_app. cbn [list_max fold_right]. lia.
Qed.






(** [PostViewTests.setUpClass], run on any database, adds one
    user, two groups with the slugs [test-slug] and [slug-test] and
    different keys, and one post after the ones there; the post is in
    the first group and not in the second.  [setUp] then gives the
    test a guest client with no user and a client logged in as the
    class's user. *)
Lemma post_view_fixture (d : Database) :
  let fx := (PostViewTests_setUpClass d).1 in
  let d' := (PostViewTests_setUpClass d).2 in
  let self := PostViewTests_setUp fx in
  users d' = (users d ++ [cls_user fx])%list
  /\ groups d' = (groups d ++ [cls_group fx; cls_wrong_group fx])%list
  /\ posts d' = (posts d ++ [cls_post fx])%list
  /\ slug (cls_group fx) = "test-slug"
  /\ slug (cls_wrong_group fx) = "slug-test"
  /\ group_id (cls_group fx) <> group_id (cls_wrong_group fx)
  /\ author (cls_post fx) = cls_user fx
  /\ in_group (cls_group fx) (cls_post fx) = true
  /\ in_group (cls_wrong_group fx) (cls_post fx) = false
  /\ session_user (guest_client self) = None
  /\ session_user (authorized_client self) = Some (cls_user fx).
Proof.
  intros fx d' self. unfold self, fx, d', PostViewTests_setUpClass.
  cbn -[String.eqb next_key].
  rewrite <- app_assoc, map_app. cbn [map app group_id].
  rewrite next_key_snoc.
  split_and!; try done; try lia.
  - apply Nat.eqb_refl.
  - apply Nat.eqb_neq. lia.
Qed.

(** What the second page holds, whether or not there is one. *)
Lemma page_two_length {A} (l : list A) :
  length (object_list (get_page l per_page (Some "2")))
  = if (10 <? length l)%nat then Nat.min 10 (length l - 10)
    else length l.
Proof.
  unfold get_page.
  change (parse_number (Some "2")) with (Number 2). cbv iota.
  change (2 <? 1)%nat with false. cbv iota.
  unfold per_page.
  destruct (Nat.ltb_spec 10 (length l)) as [Hl|Hl].
  - assert (2 <= num_pages l 10) as Hn
      by (unfold num_pages, count; apply Nat.div_le_lower_bound; lia).
    apply Nat.ltb_ge in Hn. rewrite Hn. rewrite page_length. lia.
  - assert (num_pages l 10 < 2) as Hn.
    { unfold num_pages, count. apply Nat.Div0.div_lt_upper_bound. lia. }
    assert (1 <= num_pages l 10) as Hn1
      by (unfold num_pages, count; apply Nat.div_le_lower_bound; lia).
    apply Nat.ltb_lt in Hn as Hn'. rewrite Hn'.
    replace (num_pages l 10) with 1 by lia.
    rewrite page_length. lia.
Qed.

Section Run.
Context {Content : Type}.
Variable ordering : list Post -> list Post.
Variable render : string -> Context -> Content.
Hypothesis ordering_perm : forall l, ordering l ≡ₚ l.

(** A request for the index page the cache has no entry for. *)
Lemma get_index_miss c url q (w : World Content) :
  (url, q) = ("/", "") \/ (url, q) = ("/?page=2", "page=2") ->
  cache (site w) !! url = None ->
  exists s',
    get ordering render c url w
    = (inr (index ordering render
              {| user := session_user c; full_path := url;
                 query := q |} (db (site w))),
       {| site := s'; requested := (requested w ++ [url])%list;
          held := held w |})
    /\ db s' = db (site w).
Proof.
  intros [[= -> ->]|[= -> ->]] Hmiss; unfold get.
  - rewrite get_response_index,
      (cache_page_miss ordering render) by done.
    eexists. split; reflexivity.
  - rewrite get_response_index_page2,
      (cache_page_miss ordering render) by done.
    eexists. split; reflexivity.
Qed.

Lemma get_index_hit c url (w : World Content) body :
  url = "/" \/ url = "/?page=2" ->
  cache (site w) !! url = Some body ->
  get ordering render c url w
  = (inr (FromCache body),
     {| site := site w; requested := (requested w ++ [url])%list;
        held := held w |}).
Proof.
  intros [->| ->] Hhit; unfold get.
  - rewrite get_response_index.
    by rewrite (cache_page_hit ordering render _ _ body).
  - rewrite get_response_index_page2.
    by rewrite (cache_page_hit ordering render _ _ body).
Qed.

(** Run the monad up to the request of a test of the index page. *)
Ltac to_request :=
  unfold mbind, Test_bind, bind, reverse_url;
  change (reverse "index" []) with (Some "/");
  cbv beta iota; unfold ret at 1; simpl String.append.

Ltac read_page :=
  unfold context_item, context_get, Views.index;
  cbn [response_context ctx_page query]; unfold ret;
  cbv beta iota; unfold assertEqual.

(** X11: [test_index_shows_new_post] run in a state whose cache
    has no entry for the index page passes exactly when the site
    holds one post; run in a state whose cache has the page, it
    ends with [TypeError], the response having no context. *)
Theorem index_listing_test (self : PostViewSelf) (w : World Content) :
  (cache (site w) !! "/" = None ->
   (test_index_shows_new_post ordering render self w).1 = inr tt
   <-> length (posts (db (site w))) = 1)
  /\ (forall body,
        cache (site w) !! "/" = Some body ->
        (test_index_shows_new_post ordering render self w).1
        = inl TypeError).
Proof.
  split.
  - intros Hmiss. unfold test_index_shows_new_post. to_request.
    destruct (get_index_miss (authorized_client self) "/" "" w)
      as (s' & -> & Hdb); [by left | done |].
    read_page.
    rewrite query_get_absent, first_page_length,
      (ordering_length ordering ordering_perm).
    destruct (decide _) as [He|He]; cbn [fst]; split;
      first [done | lia].
  - intros body Hhit. unfold test_index_shows_new_post. to_request.
    rewrite (get_index_hit _ _ _ body) by auto. reflexivity.
Qed.

(** X13: the two tests of [PaginatorViewsTest], each run in a state
    whose cache has no entry for its URL: the first passes exactly
    when the site holds ten posts or more; the second passes exactly
    when the site holds thirteen posts, or three (a second page that
    does not exist is answered with the last one). *)
Theorem paginator_tests_by_count (self : PaginatorFixture)
    (w : World Content) :
  (cache (site w) !! "/" = None ->
   (test_first_page_containse_ten_records ordering render self w).1
   = inr tt
   <-> 10 <= length (posts (db (site w))))
  /\ (cache (site w) !! "/?page=2" = None ->
      (test_second_page_containse_three_records ordering render self
         w).1 = inr tt
      <-> length (posts (db (site w))) = 13
          \/ length (posts (db (site w))) = 3).
Proof.
  split.
  - intros Hmiss. unfold test_first_page_containse_ten_records.
    to_request.
    destruct (get_index_miss (pg_client self) "/" "" w)
      as (s' & -> & Hdb); [by left | done |].
    read_page.
    rewrite query_get_absent, first_page_length,
      (ordering_length ordering ordering_perm).
    destruct (decide _) as [He|He]; cbn [fst]; split;
      first [done | lia].
  - intros Hmiss. unfold test_second_page_containse_three_records.
    to_request.
    destruct (get_index_miss (pg_client self) "/?page=2" "page=2" w)
      as (s' & -> & Hdb); [by right | done |].
    read_page.
    rewrite query_get_page2, page_two_length,
      (ordering_length ordering ordering_perm).
    destruct (Nat.ltb_spec 10 (length (posts (db (site w)))));
      destruct (decide _) as [He|He]; cbn [fst]; split;
      first [done | lia].
Qed.

Lemma get_index_first c (w : World Content) :
  cache (site w) !! "/" = None ->
  let ctx := {| ctx_page := get_page (ordering (posts (db (site w))))
                              per_page None;
                ctx_group := None |} in
  get ordering render c "/" w
  = (inr (Rendered "index.html" ctx (render "index.html" ctx)),
     {| site := {| db := db (site w);
                   cache := <["/" := render "index.html" ctx]>
                              (cache (site w)) |};
        requested := (requested w ++ ["/"])%list;
        held := held w |}).
Proof.
  intros Hmiss ctx. unfold get.
  rewrite get_response_index,
    (cache_page_miss ordering render) by done.
  reflexivity.
Qed.

Context `{EqDecision Content}.

(** X12: [test_index_page_cache] passes in every state whose cache
    has no entry for the index page and whose feed fits on one page,
    when the template shows different lists of posts differently:
    it makes three requests for [/], both its assertions hold, and
    it leaves one post more on the site. *)
Theorem index_cache_test_in_any_state (self : PostViewSelf)
    (w : World Content) :
  (forall c1 c2,
      object_list (ctx_page c1) <> object_list (ctx_page c2) ->
      render "index.html" c1 <> render "index.html" c2) ->
  cache (site w) !! "/" = None ->
  length (posts (db (site w))) < per_page ->
  exists w',
    test_index_page_cache ordering render self w = (inr tt, w')
    /\ requested w' = (requested w ++ ["/"; "/"; "/"])%list
    /\ held w' = held w + 2
    /\ length (posts (db (site w'))) = S (length (posts (db (site w)))).
Proof.
  intros Hrender Hmiss Hfew. unfold test_index_page_cache. to_request.
  rewrite get_index_first by done.
  unfold content_of; cbn [response_content]; unfold ret at 1;
    cbv beta iota.
  unfold on_site at 1. cbn [site create_post Post_create db cache].
  cbv beta iota. cbn [requested held option_map]. unfold ret at 1.
  cbv beta iota.
  set (cached := render "index.html" _).
  rewrite (get_index_hit _ "/" _ cached)
    by (first [by left | apply lookup_insert_eq]).
  cbn [response_content site requested held]. unfold ret at 1.
  cbv beta iota. unfold assertEqual.
  destruct (decide (cached = cached)) as [_|]; [|done].
  cbv beta iota. cbn [site requested held].
  unfold on_site. cbn [site cache_clear db requested held].
  cbv beta iota. unfold ret at 1. cbv beta iota.
  rewrite get_index_first by apply lookup_empty.
  cbn [response_content site db posts requested held]. unfold ret.
  cbv beta iota. unfold assertNotEqual.
  destruct (decide _) as [He|_].
  - exfalso. revert He. apply Hrender. cbn [ctx_page].
    intros Heq. apply (f_equal (@length Post)) in Heq.
    rewrite !first_page_length,
      !(ordering_length ordering ordering_perm) in Heq.
    cbn [cache_clear db posts] in Heq.
    rewrite length_app in Heq. cbn [length] in Heq.
    unfold per_page in Hfew. lia.
  - eexists. split; [reflexivity|]. cbn.
    rewrite <- !app_assoc, length_app. cbn. split_and!; [done|lia|lia].
Qed.
End Run.

Lemma index_listing_test_witness :
  let '(fx, d) := PostViewTests_setUpClass empty in
  (test_index_shows_new_post as_stored listing (PostViewTests_setUp fx)
     (fresh_world d)).1 = inr tt
  <-> length (posts d) = 1.
Proof.
  apply (index_listing_test as_stored listing
           TestViewFacts.as_stored_perm
           (PostViewTests_setUp (PostViewTests_setUpClass empty).1)
           (fresh_world (PostViewTests_setUpClass empty).2)).
  reflexivity.
Defined.

Lemma paginator_tests_by_count_witness :
  let '(fx, d) := PaginatorViewsTest_setUpClass empty in
  (test_second_page_containse_three_records as_stored listing fx
     (fresh_world d)).1 = inr tt
  <-> length (posts d) = 13 \/ length (posts d) = 3.
Proof.
  apply (paginator_tests_by_count as_stored listing
           TestViewFacts.as_stored_perm
           (PaginatorViewsTest_setUpClass empty).1
           (fresh_world (PaginatorViewsTest_setUpClass empty).2)).
  reflexivity.
Defined.

Lemma index_cache_test_in_any_state_witness :
  let '(fx, d) := PostViewTests_setUpClass empty in
  exists w',
    test_index_page_cache as_stored listing (PostViewTests_setUp fx)
      (fresh_world d) = (inr tt, w')
    /\ requested w' = ["/"; "/"; "/"]
    /\ held w' = 2
    /\ length (posts (db (site w'))) = 2.
Proof.
  apply (index_cache_test_in_any_state as_stored listing
           TestViewFacts.as_stored_perm
           (PostViewTests_setUp (PostViewTests_setUpClass empty).1)
           (fresh_world (PostViewTests_setUpClass empty).2)).
  - exact TestViewFacts.listing_distinguishes.
  - reflexivity.
  - cbv. lia.
Defined.

(** X14: the numbers of [PaginatorViewsTest] fix the page size: of
    thirteen objects, a paginator with [k] objects a page gives ten on
    the first page and three on the second exactly when [k] is ten. *)
Theorem page_size_is_ten {A} (l : list A) (k : nat) :
  0 < k ->
  length l = 13 ->
  length (object_list (get_page l k None)) = 10
  /\ length (object_list (get_page l k (Some "2"))) = 3
  <-> k = 10.
Proof.
  intros Hk Hl. split.
  - intros [H1 _]. change (get_page l k None) with (page l k 1) in H1.
    rewrite page_length in H1. lia.
  - intros ->. split.
    + change (get_page l 10 None) with (page l 10 1).
      rewrite page_length. lia.
    + change (get_page l 10 (Some "2"))
        with (get_page l per_page (Some "2")).
      rewrite page_two_length, Hl. done.
Qed.

Lemma page_size_is_ten_witness :
  length (object_list (get_page (seq 1 13) 10 None)) = 10
  /\ length (object_list (get_page (seq 1 13) 10 (Some "2"))) = 3
  <-> 10 = 10.
Proof. apply (page_size_is_ten (seq 1 13) 10); [lia | reflexivity]. Defined.

End FixtureFacts.
